(** * Email archive dashboard (app.py): query builder, search handler and
      schema initialisation, embedded in Rocq.

    The development follows the layers of the program:
    - [Py]: the few Python notions the handlers rely on (JSON scalars,
      truthiness, [str], [dict.get], [str.join]);
    - [Pg]: the slice of the PostgreSQL / psycopg2 behaviour the program
      exercises (positional placeholders, the SELECT dialect of the search
      statement, ILIKE, timestamp input, constraints and sequences);
    - [App]: the functions of app.py themselves;
    - [Server]: the connection pool and the handlers around it
      ([health_check], [dashboard], [woo_dashboard], and [search_emails]
      with its connection). *)

From Stdlib Require Import ZArith String Ascii List Bool Lia DecimalString.
From stdpp Require Import base option list gmap strings sorting.

Local Open Scope Z_scope.
Local Open Scope string_scope.
Local Open Scope list_scope.

(** ** Python layer *)

Module Py.

(** A JSON scalar as [request.json] hands it to the handler. *)
Inductive jval :=
  | JNull
  | JBool (b : bool)
  | JNum (n : Z)
  | JStr (s : string).

#[global] Instance jval_eq_dec : EqDecision jval.
Proof. solve_decision. Defined.

(** [bool(v)]: [None], [False], [0] and [''] are falsy. *)
Definition truthy (v : jval) : bool :=
  match v with
  | JNull => false
  | JBool b => b
  | JNum n => negb (Z.eqb n 0)
  | JStr s => negb (String.eqb s "")
  end.

(** [str(v)], as used by an f-string replacement field. *)
Definition str (v : jval) : string :=
  match v with
  | JNull => "None"
  | JBool true => "True"
  | JBool false => "False"
  | JNum n => NilZero.string_of_int (Z.to_int n)
  | JStr s => s
  end.

(** [v != s] for a string literal [s]. *)
Definition ne_str (v : jval) (s : string) : bool :=
  match v with
  | JStr t => negb (String.eqb t s)
  | _ => true
  end.

(** [data.get(key, dflt)]. *)
Definition get (data : gmap string jval) (key : string) (dflt : jval) : jval :=
  default dflt (data !! key).

(** [sep.join(parts)]. *)
Fixpoint join (sep : string) (parts : list string) : string :=
  match parts with
  | [] => ""
  | [p] => p
  | p :: rest => p +:+ sep +:+ join sep rest
  end.

End Py.

Export Py.

(** ** PostgreSQL / psycopg2 layer *)

Module Pg.

(** The exception classes the handlers can meet.  All of them derive from
    [Exception]; only [OperationalError] is singled out by the program. *)
Inductive exn :=
  | OperationalError
  | ProgrammingError
  | DataError
  | IntegrityError
  | NotSupportedError
  | IndexError
  | TypeError.

#[global] Instance exn_eq_dec : EqDecision exn.
Proof. solve_decision. Defined.

Inductive result (A : Type) :=
  | Ok (a : A)
  | Raise (e : exn).
Arguments Ok {A} a.
Arguments Raise {A} e.

#[global] Instance result_ret : MRet result := fun A a => Ok a.
#[global] Instance result_bind : MBind result := fun A B k r =>
  match r with
  | Ok a => k a
  | Raise e => Raise e
  end.

Definition of_option {A} (e : exn) (o : option A) : result A :=
  match o with
  | Some a => Ok a
  | None => Raise e
  end.

(** *** Characters and patterns *)

Definition chr (n : nat) : ascii := ascii_of_nat n.

Definition is_chr (n : nat) (c : ascii) : bool := Ascii.eqb c (chr n).

(** Case folding of the ASCII letters.  Texts are sequences of bytes
    here; what is proved of [like] and [ilike] below is meant for ASCII
    texts, on which a byte is a character and the engine folds exactly
    these letters.  On other texts the engine also folds letters beyond
    ASCII and reads [_] as one character of several bytes. *)
Definition lower (c : ascii) : ascii :=
  let n := nat_of_ascii c in
  if (65 <=? n)%nat && (n <=? 90)%nat then ascii_of_nat (n + 32) else c.

Definition lower_string (s : string) : string :=
  string_of_list_ascii (map lower (list_ascii_of_string s)).

(** [s LIKE p]: [%] matches any run of characters, [_] any one character,
    a backslash takes the next pattern character literally. *)
Fixpoint like (p : list ascii) (s : list ascii) {struct p} : bool :=
  match p with
  | [] => match s with [] => true | _ :: _ => false end
  | c :: p' =>
      if is_chr 37 c then
        (fix any (t : list ascii) : bool :=
           like p' t || match t with [] => false | _ :: t' => any t' end) s
      else if is_chr 95 c then
        match s with [] => false | _ :: s' => like p' s' end
      else if is_chr 92 c then
        match p' with
        | [] => false
        | e :: p'' =>
            match s with [] => false | d :: s' => Ascii.eqb e d && like p'' s' end
        end
      else
        match s with [] => false | d :: s' => Ascii.eqb c d && like p' s' end
  end.

(** A character that LIKE reads as itself. *)
Definition ordinary (c : ascii) : bool :=
  negb (is_chr 37 c || is_chr 95 c || is_chr 92 c).

(** A pattern whose last character is an unescaped backslash is rejected
    by the engine ("LIKE pattern must not end with escape character"). *)
Fixpoint dangling_escape (p : list ascii) : bool :=
  match p with
  | [] => false
  | c :: p' =>
      if is_chr 92 c then
        match p' with
        | [] => true
        | _ :: p'' => dangling_escape p''
        end
      else dangling_escape p'
  end.

(** [s ILIKE p]. *)
Definition ilike (p s : string) : bool :=
  like (map lower (list_ascii_of_string p)) (map lower (list_ascii_of_string s)).

(** *** Timestamp input

    The ISO forms of a [timestamptz] value: [YYYY-MM-DD] (years 0001 to
    9999), or that followed by a blank or [T], [HH:MM] or [HH:MM:SS],
    and optionally [Z], [+HH], [-HH], [+HH:MM] or [-HH:MM].  A value
    without a zone is read in the session time zone, taken to be UTC.
    The result is in seconds since the Unix epoch.

    This is a part of what the engine reads: it also takes special
    values ([yesterday], [now]), fractional seconds, months of one digit,
    month names and more.  Such texts come out as [None] here, so what
    is proved below about a date filter is proved on condition that the
    statement is accepted, or for texts of the forms above. *)

Definition digit (c : ascii) : option Z :=
  let n := nat_of_ascii c in
  if (48 <=? n)%nat && (n <=? 57)%nat then Some (Z.of_nat (n - 48)) else None.

Fixpoint digits (k : nat) (acc : Z) (cs : list ascii) : option (Z * list ascii) :=
  match k with
  | O => Some (acc, cs)
  | S k' =>
      match cs with
      | [] => None
      | c :: cs' =>
          match digit c with
          | Some d => digits k' (10 * acc + d) cs'
          | None => None
          end
      end
  end.

Definition expect (n : nat) (cs : list ascii) : option (list ascii) :=
  match cs with
  | c :: cs' => if is_chr n c then Some cs' else None
  | [] => None
  end.

Definition leap_year (y : Z) : bool :=
  ((y mod 4 =? 0) && negb (y mod 100 =? 0) || (y mod 400 =? 0))%Z.

Definition days_in_month (y m : Z) : Z :=
  if (m =? 2)%Z then (if leap_year y then 29 else 28)
  else if ((m =? 4) || (m =? 6) || (m =? 9) || (m =? 11))%Z then 30
  else 31.

(** Days between 1970-01-01 and the given civil date. *)
Definition days_from_civil (y m d : Z) : Z :=
  let y' := if (m <=? 2)%Z then y - 1 else y in
  let era := y' / 400 in
  let yoe := y' - era * 400 in
  let mp := if (m <=? 2)%Z then m + 9 else m - 3 in
  let doy := (153 * mp + 2) / 5 + d - 1 in
  let doe := yoe * 365 + yoe / 4 - yoe / 100 + doy in
  era * 146097 + doe - 719468.

Definition parse_date (cs : list ascii) : option (Z * list ascii) :=
  '(y, cs) ← digits 4 0 cs;
  cs ← expect 45 cs;
  '(m, cs) ← digits 2 0 cs;
  cs ← expect 45 cs;
  '(d, cs) ← digits 2 0 cs;
  if ((1 <=? y) && (1 <=? m) && (m <=? 12) && (1 <=? d) && (d <=? days_in_month y m))%Z
  then Some (days_from_civil y m d, cs)
  else None.

Definition parse_seconds (cs : list ascii) : option (Z * list ascii) :=
  match cs with
  | c :: cs' =>
      if is_chr 58 c then
        '(s, cs'') ← digits 2 0 cs';
        if (s <=? 59)%Z then Some (s, cs'') else None
      else Some (0, cs)
  | [] => Some (0, cs)
  end.

Definition parse_time (cs : list ascii) : option (Z * list ascii) :=
  match cs with
  | c :: cs' =>
      if is_chr 32 c || is_chr 84 c then
        '(h, cs') ← digits 2 0 cs';
        cs' ← expect 58 cs';
        '(mi, cs') ← digits 2 0 cs';
        '(s, cs') ← parse_seconds cs';
        if ((h <=? 23) && (mi <=? 59))%Z
        then Some (h * 3600 + mi * 60 + s, cs')
        else None
      else Some (0, cs)
  | [] => Some (0, cs)
  end.

Definition parse_zone_minutes (cs : list ascii) : option Z :=
  match cs with
  | [] => Some 0
  | c :: cs' =>
      if is_chr 58 c then
        '(mi, rest) ← digits 2 0 cs';
        match rest with
        | [] => if (mi <=? 59)%Z then Some mi else None
        | _ :: _ => None
        end
      else None
  end.

(** Offset of the zone from UTC, in seconds. *)
Definition parse_zone (cs : list ascii) : option Z :=
  match cs with
  | [] => Some 0
  | c :: cs' =>
      if is_chr 90 c then
        match cs' with [] => Some 0 | _ :: _ => None end
      else if is_chr 43 c || is_chr 45 c then
        '(h, rest) ← digits 2 0 cs';
        mi ← parse_zone_minutes rest;
        if (h <=? 15)%Z
        then Some ((if is_chr 45 c then -1 else 1) * (h * 3600 + mi * 60))
        else None
      else None
  end.

(** A zone is read after a time of day only. *)
Definition parse_timestamptz (s : string) : option Z :=
  '(days, cs) ← parse_date (list_ascii_of_string s);
  match cs with
  | [] => Some (days * 86400)
  | c :: _ =>
      if is_chr 32 c || is_chr 84 c then
        '(secs, cs) ← parse_time cs;
        off ← parse_zone cs;
        Some (days * 86400 + secs - off)
      else None
  end.

(** *** Positional placeholders

    psycopg2 formats the statement on the client: every [%s] of the text
    takes the next member of the argument sequence, [%%] stands for a
    percent sign. *)

Fixpoint count_placeholders_chars (cs : list ascii) : nat :=
  match cs with
  | [] => O
  | c :: cs' =>
      if is_chr 37 c then
        match cs' with
        | d :: cs'' =>
            if is_chr 115 d then S (count_placeholders_chars cs'')
            else if is_chr 37 d then count_placeholders_chars cs''
            else count_placeholders_chars cs'
        | [] => O
        end
      else count_placeholders_chars cs'
  end.

Definition count_placeholders (sql : string) : nat :=
  count_placeholders_chars (list_ascii_of_string sql).

(** The client-side check: too few arguments end in [IndexError], too
    many in [TypeError]. *)
Definition check_arguments {A} (sql : string) (args : list A) : result unit :=
  let n := count_placeholders sql in
  if (length args <? n)%nat then Raise IndexError
  else if (n <? length args)%nat then Raise TypeError
  else Ok tt.

(** *** The SELECT dialect

    Statements of the form
    [SELECT c1, ..., cn FROM t [WHERE item AND ... AND item]
     ORDER BY c DESC LIMIT k]
    where an item is a comparison [c op %s] or a parenthesised
    disjunction of comparisons. *)

Inductive token :=
  | TWord (w : string)
  | TLParen
  | TRParen
  | TComma
  | TParam
  | TOp (o : string).

Definition flush (word : list ascii) (rest : list token) : list token :=
  match word with
  | [] => rest
  | _ :: _ => TWord (string_of_list_ascii (rev word)) :: rest
  end.

Definition is_space (c : ascii) : bool :=
  is_chr 32 c || is_chr 10 c || is_chr 9 c || is_chr 13 c.

(** [word] holds the characters of the word being read, last one first. *)
Fixpoint lex (cs : list ascii) (word : list ascii) : list token :=
  match cs with
  | [] => flush word []
  | c :: cs' =>
      if is_space c then flush word (lex cs' [])
      else if is_chr 40 c then flush word (TLParen :: lex cs' [])
      else if is_chr 41 c then flush word (TRParen :: lex cs' [])
      else if is_chr 44 c then flush word (TComma :: lex cs' [])
      else if is_chr 37 c then
        match cs' with
        | d :: cs'' =>
            if is_chr 115 d then flush word (TParam :: lex cs'' [])
            else flush word (TOp "%" :: lex cs' [])
        | [] => flush word [TOp "%"]
        end
      else if is_chr 60 c || is_chr 62 c then
        match cs' with
        | d :: cs'' =>
            if is_chr 61 d
            then flush word (TOp (String c (String d EmptyString)) :: lex cs'' [])
            else flush word (TOp (String c EmptyString) :: lex cs' [])
        | [] => flush word [TOp (String c EmptyString)]
        end
      else if is_chr 61 c then flush word (TOp "=" :: lex cs' [])
      else lex cs' (c :: word)
  end.

Definition tokens (sql : string) : list token := lex (list_ascii_of_string sql) [].

Inductive cmp := OpILike | OpGe | OpLe | OpEq.

#[global] Instance cmp_eq_dec : EqDecision cmp.
Proof. solve_decision. Defined.

(** A comparison [column op %s]. *)
Record pred := Pred { p_col : string; p_op : cmp }.

Record select_stmt := Select {
  s_cols : list string;
  s_from : string;
  s_where : list (list pred);
  s_order_by : string;
  s_limit : nat
}.

(** Key words and unquoted identifiers are case-insensitive. *)
Definition kw (w k : string) : bool := String.eqb (lower_string w) k.

Definition parse_op (t : token) : option cmp :=
  match t with
  | TWord w => if kw w "ilike" then Some OpILike else None
  | TOp o =>
      if String.eqb o ">=" then Some OpGe
      else if String.eqb o "<=" then Some OpLe
      else if String.eqb o "=" then Some OpEq
      else None
  | _ => None
  end.

Fixpoint parse_cols (ts : list token) : option (list string * list token) :=
  match ts with
  | TWord c :: TComma :: rest =>
      '(cs, r) ← parse_cols rest; Some (lower_string c :: cs, r)
  | TWord c :: rest => Some ([lower_string c], rest)
  | _ => None
  end.

(** [c op %s OR c op %s ...] *)
Fixpoint parse_disj (ts : list token) : option (list pred * list token) :=
  match ts with
  | TWord c :: o :: TParam :: rest =>
      op ← parse_op o;
      let p := Pred (lower_string c) op in
      match rest with
      | TWord w :: rest' =>
          if kw w "or" then '(ps, r) ← parse_disj rest'; Some (p :: ps, r)
          else Some ([p], rest)
      | _ => Some ([p], rest)
      end
  | _ => None
  end.

Definition parse_item (ts : list token) : option (list pred * list token) :=
  match ts with
  | TLParen :: ts' =>
      '(ps, r) ← parse_disj ts';
      match r with
      | TRParen :: r' => Some (ps, r')
      | _ => None
      end
  | TWord c :: o :: TParam :: rest =>
      op ← parse_op o; Some ([Pred (lower_string c) op], rest)
  | _ => None
  end.

(** [item AND item ...]; every round consumes tokens, so the number of
    tokens is fuel enough. *)
Fixpoint parse_conj (fuel : nat) (ts : list token)
    : option (list (list pred) * list token) :=
  match fuel with
  | O => None
  | S fuel' =>
      '(d, r) ← parse_item ts;
      match r with
      | TWord w :: r' =>
          if kw w "and" then '(ds, r'') ← parse_conj fuel' r'; Some (d :: ds, r'')
          else Some ([d], r)
      | _ => Some ([d], r)
      end
  end.

Definition parse_where (ts : list token) : option (list (list pred) * list token) :=
  match ts with
  | TWord w :: ts' =>
      if kw w "where" then parse_conj (length ts') ts' else Some ([], ts)
  | _ => Some ([], ts)
  end.

Fixpoint parse_nat (cs : list ascii) (acc : nat) : option nat :=
  match cs with
  | [] => Some acc
  | c :: cs' =>
      match digit c with
      | Some d => parse_nat cs' (10 * acc + Z.to_nat d)
      | None => None
      end
  end.

Definition parse_tail (ts : list token) : option (string * nat) :=
  match ts with
  | [TWord o; TWord b; TWord c; TWord d; TWord l; TWord n] =>
      if kw o "order" && kw b "by" && kw d "desc" && kw l "limit"
         && negb (String.eqb n "")
      then k ← parse_nat (list_ascii_of_string n) 0; Some (lower_string c, k)
      else None
  | _ => None
  end.

Definition parse_select (sql : string) : option select_stmt :=
  match tokens sql with
  | TWord s :: ts =>
      if kw s "select" then
        '(cols, ts) ← parse_cols ts;
        match ts with
        | TWord f :: TWord t :: ts' =>
            if kw f "from" then
              '(w, ts'') ← parse_where ts';
              '(o, k) ← parse_tail ts'';
              Some (Select cols (lower_string t) w o k)
            else None
        | _ => None
        end
      else None
  | _ => None
  end.

(** Placeholders are numbered in the order of the text; binding pairs the
    i-th comparison with the i-th argument. *)
Fixpoint bind_disj {A} (ps : list pred) (args : list A)
    : option (list (pred * A) * list A) :=
  match ps with
  | [] => Some ([], args)
  | p :: ps' =>
      match args with
      | [] => None
      | a :: args' => '(bs, r) ← bind_disj ps' args'; Some ((p, a) :: bs, r)
      end
  end.

Fixpoint bind_conj {A} (ds : list (list pred)) (args : list A)
    : option (list (list (pred * A)) * list A) :=
  match ds with
  | [] => Some ([], args)
  | d :: ds' =>
      '(b, r) ← bind_disj d args;
      '(bs, r') ← bind_conj ds' r;
      Some (b :: bs, r')
  end.

Definition bind_where {A} (ds : list (list pred)) (args : list A)
    : option (list (list (pred * A))) :=
  '(bs, r) ← bind_conj ds args;
  match r with
  | [] => Some bs
  | _ :: _ => None
  end.

(** *** Tables

    One record per table of the schema.  A nullable column is an [option].
    The columns filled by [CURRENT_TIMESTAMP] / [CURRENT_DATE] defaults
    ([received_date], [created_at], [updated_at], [action_timestamp],
    [request_date], [processed_at]) are left out: the search handler and
    the schema setup do not read them (the dashboards, which read
    [request_date], take it as a function of the row).  Timestamps are
    seconds since the epoch, dates are days since the epoch. *)

Record email_row := EmailRow {
  e_id : Z;
  e_message_id : string;
  e_sender_email : string;
  e_sender_name : option string;
  e_recipient_email : string;
  e_subject : option string;
  e_sent_date : option Z;
  e_minio_bucket : string;
  e_minio_object_key : string;
  e_file_size_bytes : option Z;
  e_has_attachments : option bool;
  e_attachment_count : option Z;
  e_email_hash : option string;
  e_classification : option string;
  e_retention_date : option Z;
  e_zaak_id : option string;
  e_is_confidential : option bool
}.

Record audit_row := AuditRow {
  a_id : Z;
  a_email_id : option Z;
  a_action : string;
  a_user_id : string;
  a_user_ip : option string;
  a_details : option (gmap string jval)
}.

Record woo_row := WooRow {
  w_id : Z;
  w_request_id : string;
  w_requester_name : option string;
  w_requester_email : option string;
  w_request_description : option string;
  w_search_terms : option string;
  w_due_date : option Z;
  w_status : option string;
  w_assigned_to : option string
}.

Record match_row := MatchRow {
  m_id : Z;
  m_woo_request_id : option Z;
  m_email_id : option Z;
  m_relevance_score : option Z;
  m_included_in_response : option bool;
  m_exclusion_reason : option string
}.

(** A table: its rows in insertion order and the next value of the
    sequence behind its [SERIAL] key. *)
Record table (R : Type) := Table { rows : list R; next_id : Z }.
Arguments Table {R} rows next_id.
Arguments rows {R} t.
Arguments next_id {R} t.

(** A table that does not exist is [None]. *)
Record database := Database {
  email_metadata : option (table email_row);
  email_audit_log : option (table audit_row);
  woo_requests : option (table woo_row);
  woo_email_matches : option (table match_row);
  indexes : gset string
}.

Definition set_email_metadata (t : table email_row) (db : database) : database :=
  Database (Some t) (email_audit_log db) (woo_requests db) (woo_email_matches db)
           (indexes db).

Definition set_email_audit_log (t : table audit_row) (db : database) : database :=
  Database (email_metadata db) (Some t) (woo_requests db) (woo_email_matches db)
           (indexes db).

Definition set_woo_requests (t : table woo_row) (db : database) : database :=
  Database (email_metadata db) (email_audit_log db) (Some t) (woo_email_matches db)
           (indexes db).

Definition set_woo_email_matches (t : table match_row) (db : database) : database :=
  Database (email_metadata db) (email_audit_log db) (woo_requests db) (Some t)
           (indexes db).

Definition set_indexes (s : gset string) (db : database) : database :=
  Database (email_metadata db) (email_audit_log db) (woo_requests db)
           (woo_email_matches db) s.

(** *** Statements and connections

    A statement runs against the working copy of the database and either
    yields a value or raises; the database it leaves behind is the state
    at that point. *)
Definition tx (A : Type) : Type := database → result A * database.

#[global] Instance tx_ret : MRet tx := fun A a db => (Ok a, db).
#[global] Instance tx_bind : MBind tx := fun A B k m db =>
  match m db with
  | (Ok a, db') => k a db'
  | (Raise e, db') => (Raise e, db')
  end.

Fixpoint for_each {A} (f : A → tx unit) (l : list A) : tx unit :=
  match l with
  | [] => mret tt
  | a :: l' => f a ;; for_each f l'
  end.

(** Rolling back restores the tables and their rows; sequence values that
    were handed out are not given back. *)
Definition rollback_table {R} (before after : option (table R)) : option (table R) :=
  match before with
  | None => None
  | Some t =>
      Some (Table (rows t)
                  (match after with Some t' => next_id t' | None => next_id t end))
  end.

Definition rollback (before after : database) : database :=
  Database (rollback_table (email_metadata before) (email_metadata after))
           (rollback_table (email_audit_log before) (email_audit_log after))
           (rollback_table (woo_requests before) (woo_requests after))
           (rollback_table (woo_email_matches before) (woo_email_matches after))
           (indexes before).

(** A connection with its open transaction: what has been committed and
    what the statements of the transaction have made of it so far. *)
Record connection := Connection {
  committed : database;
  working : database
}.

Definition connect (db : database) : connection := Connection db db.

(** [cursor.execute(...)] (and [fetchone] / [fetchall]) on the connection. *)
Definition execute {A} (m : tx A) (conn : connection) : result A * connection :=
  match m (working conn) with
  | (r, db') => (r, Connection (committed conn) db')
  end.

(** [conn.commit()] *)
Definition commit (conn : connection) : connection :=
  Connection (working conn) (working conn).

(** Giving the connection up ([conn.close()], [putconn], or the object
    being dropped): whatever is not committed is rolled back. *)
Definition close (conn : connection) : database :=
  rollback (committed conn) (working conn).

(** *** Data definition statements *)

(** [CREATE TABLE IF NOT EXISTS email_metadata (...)] *)
Definition create_email_metadata : tx unit := fun db =>
  match email_metadata db with
  | Some _ => (Ok tt, db)
  | None => (Ok tt, set_email_metadata (Table [] 1) db)
  end.

(** [CREATE TABLE IF NOT EXISTS email_audit_log (...)]; the referenced
    table has to exist. *)
Definition create_email_audit_log : tx unit := fun db =>
  match email_audit_log db with
  | Some _ => (Ok tt, db)
  | None =>
      match email_metadata db with
      | Some _ => (Ok tt, set_email_audit_log (Table [] 1) db)
      | None => (Raise ProgrammingError, db)
      end
  end.

(** [CREATE TABLE IF NOT EXISTS woo_requests (...)] *)
Definition create_woo_requests : tx unit := fun db =>
  match woo_requests db with
  | Some _ => (Ok tt, db)
  | None => (Ok tt, set_woo_requests (Table [] 1) db)
  end.

(** [CREATE TABLE IF NOT EXISTS woo_email_matches (...)] *)
Definition create_woo_email_matches : tx unit := fun db =>
  match woo_email_matches db with
  | Some _ => (Ok tt, db)
  | None =>
      match woo_requests db, email_metadata db with
      | Some _, Some _ => (Ok tt, set_woo_email_matches (Table [] 1) db)
      | _, _ => (Raise ProgrammingError, db)
      end
  end.

(** [CREATE INDEX IF NOT EXISTS name ON email_metadata (...)] *)
Definition create_index (name : string) : tx unit := fun db =>
  if decide (name ∈ indexes db) then (Ok tt, db)
  else
    match email_metadata db with
    | Some _ => (Ok tt, set_indexes ({[name]} ∪ indexes db) db)
    | None => (Raise ProgrammingError, db)
    end.

(** *** Data manipulation statements *)

(** [SELECT COUNT( * ) FROM email_metadata] *)
Definition count_emails : tx Z := fun db =>
  match email_metadata db with
  | Some t => (Ok (Z.of_nat (length (rows t))), db)
  | None => (Raise ProgrammingError, db)
  end.

(** The values of
    [INSERT INTO email_metadata (message_id, sender_email, sender_name,
     recipient_email, subject, sent_date, minio_bucket, minio_object_key,
     file_size_bytes, zaak_id, classification)]. *)
Record email_values := EmailValues {
  v_message_id : string;
  v_sender_email : string;
  v_sender_name : string;
  v_recipient_email : string;
  v_subject : string;
  v_sent_date : string;
  v_minio_bucket : string;
  v_minio_object_key : string;
  v_file_size_bytes : Z;
  v_zaak_id : string;
  v_classification : string
}.

(** The key is drawn from the sequence first; then the timestamp text is
    read and the uniqueness of [message_id] is checked.  Columns not
    listed take their defaults. *)
Definition insert_email (v : email_values) : tx unit := fun db =>
  match email_metadata db with
  | None => (Raise ProgrammingError, db)
  | Some t =>
      let db1 := set_email_metadata (Table (rows t) (next_id t + 1)) db in
      match parse_timestamptz (v_sent_date v) with
      | None => (Raise DataError, db1)
      | Some ts =>
          if existsb (fun r => String.eqb (e_message_id r) (v_message_id v)) (rows t)
          then (Raise IntegrityError, db1)
          else
            let r := EmailRow (next_id t) (v_message_id v) (v_sender_email v)
                       (Some (v_sender_name v)) (v_recipient_email v)
                       (Some (v_subject v)) (Some ts) (v_minio_bucket v)
                       (v_minio_object_key v) (Some (v_file_size_bytes v))
                       (Some false) (Some 0) None (Some (v_classification v))
                       None (Some (v_zaak_id v)) (Some false) in
            (Ok tt, set_email_metadata (Table (rows t ++ [r]) (next_id t + 1)) db)
      end
  end.

(** The values of
    [INSERT INTO woo_requests (request_id, requester_name, requester_email,
     request_description, search_terms, due_date, status)]. *)
Record woo_values := WooValues {
  v_request_id : string;
  v_requester_name : string;
  v_requester_email : string;
  v_request_description : string;
  v_search_terms : string;
  v_due_date : string;
  v_status : string
}.

Definition parse_date_text (s : string) : option Z :=
  match parse_date (list_ascii_of_string s) with
  | Some (d, []) => Some d
  | _ => None
  end.

Definition insert_woo (v : woo_values) : tx unit := fun db =>
  match woo_requests db with
  | None => (Raise ProgrammingError, db)
  | Some t =>
      let db1 := set_woo_requests (Table (rows t) (next_id t + 1)) db in
      match parse_date_text (v_due_date v) with
      | None => (Raise DataError, db1)
      | Some d =>
          if existsb (fun r => String.eqb (w_request_id r) (v_request_id v)) (rows t)
          then (Raise IntegrityError, db1)
          else
            let r := WooRow (next_id t) (v_request_id v) (Some (v_requester_name v))
                       (Some (v_requester_email v)) (Some (v_request_description v))
                       (Some (v_search_terms v)) (Some d) (Some (v_status v)) None in
            (Ok tt, set_woo_requests (Table (rows t ++ [r]) (next_id t + 1)) db)
      end
  end.

(** [INSERT INTO email_audit_log (email_id, action, user_id, details)];
    a non-null [email_id] has to be the key of an email row. *)
Definition insert_audit (email_id : option Z) (action user_id : string)
    (details : gmap string jval) : tx unit := fun db =>
  match email_audit_log db with
  | None => (Raise ProgrammingError, db)
  | Some t =>
      let db1 := set_email_audit_log (Table (rows t) (next_id t + 1)) db in
      let referenced :=
        match email_id with
        | None => true
        | Some i =>
            match email_metadata db with
            | Some et => existsb (fun r => Z.eqb (e_id r) i) (rows et)
            | None => false
            end
        end in
      if referenced then
        let r := AuditRow (next_id t) email_id action user_id None (Some details) in
        (Ok tt, set_email_audit_log (Table (rows t ++ [r]) (next_id t + 1)) db)
      else (Raise IntegrityError, db1)
  end.

(** *** Evaluating a SELECT on [email_metadata] *)

Inductive sqlval :=
  | VNull
  | VInt (n : Z)
  | VText (s : string)
  | VBool (b : bool)
  | VTimestamp (t : Z)
  | VDate (d : Z).

Inductive coltype := TyInt | TyText | TyBool | TyTimestamptz | TyDate.

Definition nullable {A} (f : A → sqlval) (o : option A) : sqlval :=
  match o with
  | Some a => f a
  | None => VNull
  end.

Definition email_columns : list (string * (coltype * (email_row → sqlval))) :=
  [ ("id", (TyInt, fun r => VInt (e_id r)));
    ("message_id", (TyText, fun r => VText (e_message_id r)));
    ("sender_email", (TyText, fun r => VText (e_sender_email r)));
    ("sender_name", (TyText, fun r => nullable VText (e_sender_name r)));
    ("recipient_email", (TyText, fun r => VText (e_recipient_email r)));
    ("subject", (TyText, fun r => nullable VText (e_subject r)));
    ("sent_date", (TyTimestamptz, fun r => nullable VTimestamp (e_sent_date r)));
    ("minio_bucket", (TyText, fun r => VText (e_minio_bucket r)));
    ("minio_object_key", (TyText, fun r => VText (e_minio_object_key r)));
    ("file_size_bytes", (TyInt, fun r => nullable VInt (e_file_size_bytes r)));
    ("has_attachments", (TyBool, fun r => nullable VBool (e_has_attachments r)));
    ("attachment_count", (TyInt, fun r => nullable VInt (e_attachment_count r)));
    ("email_hash", (TyText, fun r => nullable VText (e_email_hash r)));
    ("classification", (TyText, fun r => nullable VText (e_classification r)));
    ("retention_date", (TyDate, fun r => nullable VDate (e_retention_date r)));
    ("zaak_id", (TyText, fun r => nullable VText (e_zaak_id r)));
    ("is_confidential", (TyBool, fun r => nullable VBool (e_is_confidential r))) ].

Fixpoint assoc {A} (k : string) (l : list (string * A)) : option A :=
  match l with
  | [] => None
  | (k', a) :: l' => if String.eqb k' k then Some a else assoc k l'
  end.

Definition email_column (c : string) : option (coltype * (email_row → sqlval)) :=
  assoc c email_columns.

(** One comparison with its argument.  A string argument is an untyped
    literal and takes the type of the column; a number or a boolean has no
    comparison operator with a text or timestamp column; a comparison with
    NULL is never true.  The argument is resolved when the statement is
    prepared, before any row is read. *)
Definition text_matches (f : string → bool) (v : sqlval) : bool :=
  match v with
  | VText s => f s
  | _ => false
  end.

Definition timestamp_matches (f : Z → bool) (v : sqlval) : bool :=
  match v with
  | VTimestamp t => f t
  | _ => false
  end.

Definition compile_pred (b : pred * jval) : result (email_row → bool) :=
  '(ty, col) ← of_option ProgrammingError (email_column (p_col b.1));
  match p_op b.1, ty with
  | OpILike, TyText =>
      match b.2 with
      | JStr pat =>
          if dangling_escape (list_ascii_of_string pat) then Raise DataError
          else Ok (fun r => text_matches (ilike pat) (col r))
      | JNull => Ok (fun _ => false)
      | _ => Raise ProgrammingError
      end
  | OpILike, _ => Raise ProgrammingError
  | OpEq, TyText =>
      match b.2 with
      | JStr s => Ok (fun r => text_matches (fun t => String.eqb t s) (col r))
      | JNull => Ok (fun _ => false)
      | _ => Raise ProgrammingError
      end
  | OpGe, TyTimestamptz =>
      match b.2 with
      | JStr s =>
          bound ← of_option DataError (parse_timestamptz s);
          Ok (fun r => timestamp_matches (fun t => Z.leb bound t) (col r))
      | JNull => Ok (fun _ => false)
      | _ => Raise ProgrammingError
      end
  | OpLe, TyTimestamptz =>
      match b.2 with
      | JStr s =>
          bound ← of_option DataError (parse_timestamptz s);
          Ok (fun r => timestamp_matches (fun t => Z.leb t bound) (col r))
      | JNull => Ok (fun _ => false)
      | _ => Raise ProgrammingError
      end
  | _, _ => Raise NotSupportedError
  end.

Fixpoint compile_disj (bs : list (pred * jval)) : result (email_row → bool) :=
  match bs with
  | [] => Ok (fun _ => false)
  | b :: bs' =>
      f ← compile_pred b;
      g ← compile_disj bs';
      Ok (fun r => f r || g r)
  end.

Fixpoint compile_where (ds : list (list (pred * jval))) : result (email_row → bool) :=
  match ds with
  | [] => Ok (fun _ => true)
  | d :: ds' =>
      f ← compile_disj d;
      g ← compile_where ds';
      Ok (fun r => f r && g r)
  end.

(** The select list; every name has to be a column. *)
Fixpoint compile_cols (cs : list string)
    : result (email_row → list (string * sqlval)) :=
  match cs with
  | [] => Ok (fun _ => [])
  | c :: cs' =>
      '(_, col) ← of_option ProgrammingError (email_column c);
      rest ← compile_cols cs';
      Ok (fun r => (c, col r) :: rest r)
  end.

(** The sort key of [ORDER BY c DESC], for the numeric column types. *)
Definition numeric_key (v : sqlval) : option Z :=
  match v with
  | VInt n => Some n
  | VTimestamp t => Some t
  | VDate d => Some d
  | _ => None
  end.

Definition order_key (c : string) : result (email_row → option Z) :=
  '(ty, col) ← of_option ProgrammingError (email_column c);
  match ty with
  | TyInt | TyTimestamptz | TyDate => Ok (fun r => numeric_key (col r))
  | _ => Raise NotSupportedError
  end.

(** [r1] may come before [r2] in descending order; NULL sorts first. *)
Definition desc_before (key : email_row → option Z) (r1 r2 : email_row) : Prop :=
  match key r1, key r2 with
  | None, _ => True
  | Some _, None => False
  | Some a, Some b => (b ≤ a)%Z
  end.

#[global] Instance desc_before_dec key r1 r2 : Decision (desc_before key r1 r2).
Proof. unfold desc_before. destruct (key r1), (key r2); apply _. Defined.

(** A prepared SELECT: the row filter of its WHERE clause, its sort key,
    its select list and its limit. *)
Record plan := Plan {
  pl_filter : email_row → bool;
  pl_key : email_row → option Z;
  pl_project : email_row → list (string * sqlval);
  pl_limit : nat
}.

(** Client-side formatting, then the parser. *)
Definition parse_statement (sql : string) (args : list jval) : result select_stmt :=
  _ ← check_arguments sql args;
  st ← of_option NotSupportedError (parse_select sql);
  if String.eqb (s_from st) "email_metadata" then Ok st
  else Raise NotSupportedError.

Definition plan_of (st : select_stmt) (args : list jval) : result plan :=
  proj ← compile_cols (s_cols st);
  bs ← of_option IndexError (bind_where (s_where st) args);
  f ← compile_where bs;
  key ← order_key (s_order_by st);
  Ok (Plan f key proj (s_limit st)).

(** The rows a plan picks: those satisfying the WHERE clause, in
    descending order of the key, cut at the limit. *)
Definition select_rows (pl : plan) (t : table email_row) : list email_row :=
  take (pl_limit pl)
       (merge_sort (desc_before (pl_key pl)) (List.filter (pl_filter pl) (rows t))).

(** [cursor.execute(sql, args)] followed by [cursor.fetchall()] on a
    [RealDictCursor]: one mapping from column name to value per row.
    The values fetched are taken to be ones the driver can hand to
    Python: a stored timestamp beyond the year 9999, on which [fetchall]
    raises, is outside this function.  The theorems about the rows of a
    reply are therefore stated for calls that answer 200. *)
Definition execute_select (sql : string) (args : list jval)
    : tx (list (list (string * sqlval))) := fun db =>
  match parse_statement sql args with
  | Raise e => (Raise e, db)
  | Ok st =>
      match email_metadata db with
      | None => (Raise ProgrammingError, db)
      | Some t =>
          match plan_of st args with
          | Raise e => (Raise e, db)
          | Ok pl => (Ok (map (pl_project pl) (select_rows pl t)), db)
          end
      end
  end.

End Pg.

Export Pg.

(** ** The application (app.py) *)

Module App.

(** *** search_emails: building the statement *)

(** The condition appended for a free-text query. *)
Definition query_condition : string := "
                (subject ILIKE %s OR
                 sender_email ILIKE %s OR
                 recipient_email ILIKE %s)
            ".

(** [f'%{query}%'] *)
Definition wildcard (query : jval) : jval := JStr ("%" +:+ str query +:+ "%").

(** The two lists [where_conditions] and [params] after the four [if]
    statements. *)
Definition build_where (query date_from date_to classification : jval)
    : list string * list jval :=
  let where_conditions := [] in
  let params := [] in
  let '(where_conditions, params) :=
    if truthy query
    then (where_conditions ++ [query_condition],
          params ++ [wildcard query; wildcard query; wildcard query])
    else (where_conditions, params) in
  let '(where_conditions, params) :=
    if truthy date_from
    then (where_conditions ++ ["sent_date >= %s"], params ++ [date_from])
    else (where_conditions, params) in
  let '(where_conditions, params) :=
    if truthy date_to
    then (where_conditions ++ ["sent_date <= %s"], params ++ [date_to])
    else (where_conditions, params) in
  let '(where_conditions, params) :=
    if truthy classification && ne_str classification "all"
    then (where_conditions ++ ["classification = %s"], params ++ [classification])
    else (where_conditions, params) in
  (where_conditions, params).

(** [" WHERE " + " AND ".join(where_conditions) if where_conditions else ""] *)
Definition where_clause (where_conditions : list string) : string :=
  match where_conditions with
  | [] => ""
  | _ :: _ => " WHERE " +:+ join " AND " where_conditions
  end.

Definition query_sql (where_clause : string) : string :=
  "
            SELECT id, message_id, sender_email, sender_name, 
                   recipient_email, subject, sent_date, classification,
                   zaak_id, has_attachments, file_size_bytes
            FROM email_metadata
            " +:+ where_clause +:+ "
            ORDER BY sent_date DESC
            LIMIT 50
        ".

(** The filter values as the handler reads them from the request body. *)
Record filters := Filters {
  query : jval;
  date_from : jval;
  date_to : jval;
  classification : jval
}.

Definition read_filters (data : gmap string jval) : filters :=
  Filters (get data "query" (JStr ""))
          (get data "date_from" JNull)
          (get data "date_to" JNull)
          (get data "classification" JNull).

Definition conditions_of (f : filters) : list string :=
  (build_where (query f) (date_from f) (date_to f) (classification f)).1.

Definition params_of (f : filters) : list jval :=
  (build_where (query f) (date_from f) (date_to f) (classification f)).2.

Definition statement_of (f : filters) : string :=
  query_sql (where_clause (conditions_of f)).

(** *** search_emails: the handler *)

(** The points of the handler at which the environment (network, server)
    can make a call fail. *)
Inductive stage := AtConnect | AtSelect | AtInsert | AtCommit.

#[global] Instance stage_eq_dec : EqDecision stage.
Proof. solve_decision. Defined.

Definition fails_at (fault : option (stage * exn)) (s : stage) : tx unit := fun db =>
  match fault with
  | Some (s', e) => if decide (s' = s) then (Raise e, db) else (Ok tt, db)
  | None => (Ok tt, db)
  end.

Record search_result := SearchResult {
  results : list (list (string * sqlval));
  total : nat
}.

Inductive response :=
  | Json200 (body : search_result)
  | Json500 (error : exn).

(** The statements of the [try] block up to the audit insert; they give
    the rows fetched. *)
Definition search_statements (fault : option (stage * exn)) (f : filters)
    : tx (list (list (string * sqlval))) :=
  fails_at fault AtSelect ;;
  results ← execute_select (statement_of f) (params_of f);
  fails_at fault AtInsert ;;
  insert_audit None "search" "demo_user"
    {[ "query" := query f;
       "results_count" := JNum (Z.of_nat (length results)) ]} ;;
  mret results.

(** The handler: the reply and the database the call leaves behind.  Any
    exception of the [try] block ends in the [except] branch; the
    [finally] branch gives the connection back.  Building the reply does
    not raise: the values of the select list and the [total] are all
    serialisable. *)
Definition search_emails (fault : option (stage * exn)) (data : gmap string jval)
    (db : database) : response * database :=
  let f := read_filters data in
  match fails_at fault AtConnect db with
  | (Raise e, _) => (Json500 e, db)
  | (Ok _, _) =>
      let conn := connect db in
      match execute (search_statements fault f) conn with
      | (Raise e, conn) => (Json500 e, close conn)
      | (Ok results, conn) =>
          match fails_at fault AtCommit (working conn) with
          | (Raise e, _) => (Json500 e, close conn)
          | (Ok _, _) =>
              let conn := commit conn in
              (Json200 (SearchResult results (length results)), close conn)
          end
      end
  end.

(** *** init_database *)

Definition max_retries : nat := 30.

(** The text of a JSON array of strings, as in
    the literal for [recipient_email]: the members in double quotes,
    separated by a comma and a blank, between square brackets. *)
Definition quoted (s : string) : string :=
  String (chr 34) s +:+ String (chr 34) "".

Definition json_array (members : list string) : string :=
  "[" +:+ join ", " (map quoted members) +:+ "]".

Definition sample_emails : list email_values :=
  [ EmailValues "demo-001@haarlem.nl" "j.doe@haarlem.nl" "John Doe"
      (json_array ["team@haarlem.nl"; "manager@haarlem.nl"])
      "Project update - DMS implementatie voortgang" "2024-01-15 10:30:00+01"
      "user-j-doe" "emails/2024/01/demo-001.eml" 1024 "ZAAK-2024-001" "intern";
    EmailValues "demo-002@haarlem.nl" "burger@example.com" "Bezorgde Burger"
      (json_array ["info@haarlem.nl"])
      "WOO verzoek - verkeerslichten en verkeersdata gemeente"
      "2024-01-16 14:20:00+01"
      "user-info" "emails/2024/01/demo-002.eml" 2048 "WOO-2024-002" "openbaar";
    EmailValues "demo-003@haarlem.nl" "wethouder@haarlem.nl" "Wethouder Smith"
      (json_array ["griffie@haarlem.nl"; "pers@haarlem.nl"])
      "VERTROUWELIJK: Coalitieoverleg agenda en afspraken" "2024-01-17 09:15:00+01"
      "user-wethouder" "emails/2024/01/demo-003.eml" 512 "RAAD-2024-003"
      "vertrouwelijk";
    EmailValues "demo-004@haarlem.nl" "projectleider@haarlem.nl" "Project Manager IT"
      (json_array ["cio@haarlem.nl"])
      "MinIO implementatie - status update week 3" "2024-01-18 16:45:00+01"
      "user-projectleider" "emails/2024/01/demo-004.eml" 856 "PROJ-2024-004" "intern";
    EmailValues "demo-005@haarlem.nl" "journalist@haarlemsdagblad.nl" "Journalist HD"
      (json_array ["woordvoering@haarlem.nl"])
      "Vragen over digitalisering gemeente - deadline artikel"
      "2024-01-19 11:30:00+01"
      "user-woordvoering" "emails/2024/01/demo-005.eml" 1500 "PERS-2024-001"
      "openbaar" ].

Definition sample_woo_request : woo_values :=
  WooValues "WOO-2024-001" "Journalist Haarlems Dagblad" "journalist@haarlemsdagblad.nl"
    "Verzoek om alle emails betreffende DMS implementatie en digitalisering projecten"
    "DMS implementatie digitalisering" "2024-02-15" "processing".

(** [(email_id, action, user_id, details)]; the details are the objects
    the JSON texts of the source denote. *)
Definition audit_logs : list (Z * string * string * gmap string jval) :=
  [ (1, "created", "system",
     {[ "source" := JStr "exchange_transport"; "automated" := JBool true ]});
    (2, "created", "system",
     {[ "source" := JStr "external_email"; "woo_relevant" := JBool true ]});
    (3, "created", "system",
     {[ "source" := JStr "internal_email"; "classification" := JStr "confidential" ]});
    (4, "created", "system",
     {[ "source" := JStr "project_email"; "automated" := JBool true ]});
    (5, "created", "system",
     {[ "source" := JStr "external_email"; "press_related" := JBool true ]}) ].

(** The block under [if count == 0]. *)
Definition insert_sample_data : tx unit :=
  for_each insert_email sample_emails ;;
  insert_woo sample_woo_request ;;
  for_each (fun log_data : Z * string * string * gmap string jval =>
              let '(email_id, action, user_id, details) := log_data in
              insert_audit (Some email_id) action user_id details)
           audit_logs.

(** The four [CREATE TABLE IF NOT EXISTS] statements. *)
Definition create_tables : tx unit :=
  create_email_metadata ;;
  create_email_audit_log ;;
  create_woo_requests ;;
  create_woo_email_matches.

(** The three [CREATE INDEX IF NOT EXISTS] statements. *)
Definition create_indexes : tx unit :=
  create_index "idx_email_sender" ;;
  create_index "idx_email_subject" ;;
  create_index "idx_email_date".

(** The statements of one attempt, from the first [CREATE TABLE] to the
    last insert; [conn.commit()] follows them. *)
Definition ensure_schema : tx unit :=
  create_tables ;;
  create_indexes ;;
  count ← count_emails;
  if Z.eqb count 0 then insert_sample_data else mret tt.

(** One pass through the [try] block.  [fault] is the exception, if any,
    that the environment raises in this attempt before the commit:
    [psycopg2.connect] failing, the server going away.  The database an
    attempt leaves behind is the committed one, or the one before the
    attempt with its transaction rolled back. *)
Definition attempt (fault : option exn) (db : database) : result unit * database :=
  match fault with
  | Some e => (Raise e, db)
  | None =>
      let conn := connect db in
      match execute ensure_schema conn with
      | (Ok tt, conn) => (Ok tt, close (commit conn))
      | (Raise e, conn) => (Raise e, close conn)
      end
  end.

(** What the function did, in order. *)
Inductive event :=
  | Attempt (number : nat)
  | Sleep (seconds : Z).

#[global] Instance event_eq_dec : EqDecision event.
Proof. solve_decision. Defined.

(** How a call ends: [return True], falling out of the [while] (which
    returns [None]) or an exception.  [OutOfFuel] is the model's own. *)
Inductive outcome :=
  | Returned (value : option bool)
  | Raised (e : exn)
  | OutOfFuel.

Record init_run := InitRun {
  ending : outcome;
  db_after : database;
  trace : list event
}.

(** The [while retry_count < max_retries] loop.  [faults n] is the fault of
    the attempt made when [retry_count] is [n]. *)
Fixpoint init_loop (fuel : nat) (faults : nat → option exn) (retry_count : nat)
    (db : database) (done : list event) : init_run :=
  match fuel with
  | O => InitRun OutOfFuel db done
  | S fuel' =>
      if (retry_count <? max_retries)%nat then
        let done := done ++ [Attempt retry_count] in
        match attempt (faults retry_count) db with
        | (Ok _, db') => InitRun (Returned (Some true)) db' done
        | (Raise OperationalError, db') =>
            let retry_count := (retry_count + 1)%nat in
            if (retry_count <? max_retries)%nat
            then init_loop fuel' faults retry_count db' (done ++ [Sleep 2])
            else InitRun (Raised OperationalError) db' done
        | (Raise e, db') => InitRun (Raised e) db' done
        end
      else InitRun (Returned None) db done
  end.

Definition init_database (faults : nat → option exn) (db : database) : init_run :=
  init_loop (S max_retries) faults 0 db [].



End App.

Export App.

(** A database without any table. *)
Definition fresh_database : database := Database None None None None ∅.

(** What the server makes of the statement the handler sends for the
    filters [f]: client-side formatting, parsing, then planning. *)
Definition prepare (f : filters) : result plan :=
  st ← parse_statement (statement_of f) (params_of f);
  plan_of st (params_of f).

(** ** The specification's reading of the search filters

    These definitions follow the words of the specification, not the code;
    the theorems below compare the two. *)

Module Spec.

(** A filter is applied when the handler's test on it succeeds. *)
Definition applied (v : jval) : bool := truthy v.

Definition classification_applied (v : jval) : bool :=
  truthy v && negb (bool_decide (v = JStr "all")).

(** The wildcard-wrapped literal of a free-text query. *)
Definition pattern (q : jval) : string := "%" +:+ str q +:+ "%".

(** The comparisons of the WHERE clause, each with the value bound to its
    placeholder: the free-text condition first (three positions, one
    value), then the lower and the upper bound on the sent timestamp, then
    the classification. *)
Definition intended_binding (f : filters) : list (list (pred * jval)) :=
  (if applied (query f)
   then [[ (Pred "subject" OpILike, JStr (pattern (query f)));
           (Pred "sender_email" OpILike, JStr (pattern (query f)));
           (Pred "recipient_email" OpILike, JStr (pattern (query f))) ]]
   else []) ++
  (if applied (date_from f)
   then [[ (Pred "sent_date" OpGe, date_from f) ]] else []) ++
  (if applied (date_to f)
   then [[ (Pred "sent_date" OpLe, date_to f) ]] else []) ++
  (if classification_applied (classification f)
   then [[ (Pred "classification" OpEq, classification f) ]] else []).

Definition opt_test {A} (p : A → bool) (o : option A) : bool :=
  match o with
  | Some a => p a
  | None => false
  end.

(** Subject OR sender address OR recipient address matches the pattern,
    case-insensitively. *)
Definition matches_query (q : jval) (r : email_row) : bool :=
  opt_test (ilike (pattern q)) (e_subject r)
  || ilike (pattern q) (e_sender_email r)
  || ilike (pattern q) (e_recipient_email r).

(** The timestamp a date filter denotes. *)
Definition bound_of (v : jval) : option Z :=
  match v with
  | JStr s => parse_timestamptz s
  | _ => None
  end.

(** Sent on or after the bound. *)
Definition matches_from (v : jval) (r : email_row) : bool :=
  match bound_of v with
  | Some b => opt_test (Z.leb b) (e_sent_date r)
  | None => false
  end.

(** Sent on or before the bound. *)
Definition matches_to (v : jval) (r : email_row) : bool :=
  match bound_of v with
  | Some b => opt_test (fun t => Z.leb t b) (e_sent_date r)
  | None => false
  end.

(** The classification is exactly the given one. *)
Definition matches_classification (v : jval) (r : email_row) : bool :=
  match v with
  | JStr s => opt_test (fun c => String.eqb c s) (e_classification r)
  | _ => false
  end.

(** A row satisfies the filters when it satisfies every applied one. *)
Definition satisfies (f : filters) (r : email_row) : bool :=
  (if applied (query f) then matches_query (query f) r else true)
  && (if applied (date_from f) then matches_from (date_from f) r else true)
  && (if applied (date_to f) then matches_to (date_to f) r else true)
  && (if classification_applied (classification f)
      then matches_classification (classification f) r else true).

(** The filters the engine can evaluate: an applied date filter is the
    text of a timestamp, an applied classification is a string. *)
Definition well_formed (f : filters) : bool :=
  (if applied (date_from f) then bool_decide (is_Some (bound_of (date_from f))) else true)
  && (if applied (date_to f) then bool_decide (is_Some (bound_of (date_to f))) else true)
  && (if classification_applied (classification f)
      then match classification f with JStr _ => true | _ => false end
      else true).

(** One member of [results]: the eleven columns of the select list. *)
Definition hit (r : email_row) : list (string * sqlval) :=
  [ ("id", VInt (e_id r));
    ("message_id", VText (e_message_id r));
    ("sender_email", VText (e_sender_email r));
    ("sender_name", nullable VText (e_sender_name r));
    ("recipient_email", VText (e_recipient_email r));
    ("subject", nullable VText (e_subject r));
    ("sent_date", nullable VTimestamp (e_sent_date r));
    ("classification", nullable VText (e_classification r));
    ("zaak_id", nullable VText (e_zaak_id r));
    ("has_attachments", nullable VBool (e_has_attachments r));
    ("file_size_bytes", nullable VInt (e_file_size_bytes r)) ].

(** The rows of the email table that satisfy the filters. *)
Definition matching (f : filters) (db : database) : list email_row :=
  match email_metadata db with
  | Some t => List.filter (satisfies f) (rows t)
  | None => []
  end.

(** Most recent first; rows without a sent timestamp come first. *)
Definition newest_first : relation email_row := desc_before e_sent_date.

(** The events of a start-up whose first [k] attempts fail on the
    connection: each failed attempt is followed by a two-second sleep,
    then comes attempt number [k]. *)
Definition retry_trace (k : nat) : list event :=
  concat (map (fun n => [Attempt n; Sleep 2]) (seq 0 k)) ++ [Attempt k].

End Spec.

Export Spec.

(** The comparisons the parser finds in the statement. *)
Definition shape (f : filters) : list (list pred) :=
  map (map fst) (intended_binding f).

Definition select_list : list string :=
  ["id"; "message_id"; "sender_email"; "sender_name"; "recipient_email"; "subject";
   "sent_date"; "classification"; "zaak_id"; "has_attachments"; "file_size_bytes"].

(** [agrees c ok g]: the compilation [c] succeeds exactly when [ok] holds,
    and then its row test is [g]. *)
Definition agrees (c : result (email_row → bool)) (ok : bool)
    (g : email_row → bool) : Prop :=
  match c with
  | Ok g' => ok = true ∧ ∀ r, g' r = g r
  | Raise _ => ok = false
  end.

(** The rows of the tables, [[]] for a table that does not exist. *)
Definition emails (db : database) : list email_row :=
  from_option rows [] (email_metadata db).

Definition audit_entries (db : database) : list audit_row :=
  from_option rows [] (email_audit_log db).

Definition requests (db : database) : list woo_row :=
  from_option rows [] (woo_requests db).

Definition matches (db : database) : list match_row :=
  from_option rows [] (woo_email_matches db).

(** The row the handler adds to the audit log. *)
Definition search_entry (key : Z) (query : jval) (count : nat) : audit_row :=
  AuditRow key None "search" "demo_user" None
    (Some {[ "query" := query; "results_count" := JNum (Z.of_nat count) ]}).

(** What a statement leaves alone. *)
Definition same_tables (db db' : database) : Prop :=
  email_metadata db' = email_metadata db
  ∧ email_audit_log db' = email_audit_log db
  ∧ woo_requests db' = woo_requests db
  ∧ woo_email_matches db' = woo_email_matches db.

Definition tables_exist (db : database) : Prop :=
  is_Some (email_metadata db)
  ∧ is_Some (email_audit_log db)
  ∧ is_Some (woo_requests db)
  ∧ is_Some (woo_email_matches db).

Definition same_rows (db db' : database) : Prop :=
  emails db' = emails db
  ∧ audit_entries db' = audit_entries db
  ∧ requests db' = requests db
  ∧ matches db' = matches db.


(** The names of the three indexes. *)
Definition index_names : gset string :=
  {[ "idx_email_sender"; "idx_email_subject"; "idx_email_date" ]}.

(** A database on which schema setup has nothing left to do: the four
    tables and the three indexes exist and the email table has a row. *)
Definition initialised (db : database) : Prop :=
  is_Some (email_metadata db)
  ∧ is_Some (email_audit_log db)
  ∧ is_Some (woo_requests db)
  ∧ is_Some (woo_email_matches db)
  ∧ index_names ⊆ indexes db
  ∧ emails db ≠ [].

(** The body of a 200 reply (an empty one for a 500 reply). *)
Definition reply_body (r : response) : search_result :=
  match r with
  | Json200 body => body
  | Json500 _ => SearchResult [] 0
  end.

(** The database a first start leaves behind. *)
Definition seeded_database : database :=
  db_after (init_database (fun _ => None) fresh_database).

(** A table of [n] emails, all alike but for their key and message id. *)
Definition numbered_email (n : nat) : email_row :=
  EmailRow (Z.of_nat n) ("m" +:+ NilZero.string_of_int (Z.to_int (Z.of_nat n)))
    "a@haarlem.nl" None "[]" (Some "x") (Some (Z.of_nat n)) "b" "k"
    None (Some false) (Some 0) None (Some "intern") None None (Some false).

Definition crowded_database (n : nat) : database :=
  Database (Some (Table (map numbered_email (seq 1 n)) (Z.of_nat n + 1)))
           (Some (Table [] 1)) (Some (Table [] 1)) (Some (Table [] 1)) ∅.


(** A filter value that the handler applies although it is not a string:
    a number other than 0, or [true]. *)
Definition not_text (v : jval) : bool :=
  truthy v && match v with JStr _ => false | _ => true end.

(** What a rolled back transaction leaves of a database: the tables that
    were there, with the rows they had, and the indexes. *)
Definition restored (db db' : database) : Prop :=
  rows <$> email_metadata db' = rows <$> email_metadata db
  ∧ rows <$> email_audit_log db' = rows <$> email_audit_log db
  ∧ rows <$> woo_requests db' = rows <$> woo_requests db
  ∧ rows <$> woo_email_matches db' = rows <$> woo_email_matches db
  ∧ indexes db' = indexes db.

(** An email table that has lost its rows but not its place in the key
    sequence. *)
Definition emptied_database (next : Z) : database :=
  Database (Some (Table [] next)) None None None ∅.

(** *** Vocabulary for the free-text query *)

(** A text of ASCII characters. *)
Definition ascii_text (s : string) : bool :=
  forallb (fun c => (nat_of_ascii c <? 128)%nat) (list_ascii_of_string s).

(** A text without the characters LIKE reads as pattern characters. *)
Definition plain_text (s : string) : bool :=
  forallb ordinary (list_ascii_of_string s).

(** The three columns the query is matched against hold ASCII texts. *)
Definition ascii_row (r : email_row) : bool :=
  from_option ascii_text true (e_subject r)
  && ascii_text (e_sender_email r)
  && ascii_text (e_recipient_email r).

(** A text with its letters folded to lower case. *)
Definition folded (s : string) : list ascii := map lower (list_ascii_of_string s).

(** One of the three columns the query is matched against has the
    property. *)
Definition some_column (P : string → Prop) (r : email_row) : Prop :=
  (∃ s, e_subject r = Some s ∧ P s)
  ∨ P (e_sender_email r)
  ∨ P (e_recipient_email r).

(** The request applies the free-text query [q] and no other filter. *)
Definition query_alone (f : filters) (q : string) : Prop :=
  query f = JStr q
  ∧ q ≠ ""
  ∧ truthy (date_from f) = false
  ∧ truthy (date_to f) = false
  ∧ classification_applied (classification f) = false.

(** A row with the given subject and sender address. *)
Definition mail (subject sender : string) : email_row :=
  EmailRow 1 "m-1" sender None "[]" (Some subject) None "b" "k" None None None None
    None None None None.

(** ** The connection pool and the other handlers (app.py) *)

Module Server.

(** *** psycopg2.pool.SimpleConnectionPool *)

(** What a handler can meet: an exception of the driver, [PoolError] of
    [psycopg2.pool], or an exception of the template engine. *)
Inductive failure :=
  | DbError (e : exn)
  | PoolError
  | TemplateError.

(** The pool as the handlers see it: how many connections lie idle in it
    ([_pool]) and how many it has handed out ([_used]). *)
Record pool := Pool { idle : nat; used : nat }.

Definition minconn : nat := 1.
Definition maxconn : nat := 10.

(** [SimpleConnectionPool(1, 10, **db_config)] opens [minconn]
    connections.  The module catches its exception and goes on with
    [db_pool = None]. *)
Definition create_pool (connect_fault : option exn) : option pool :=
  match connect_fault with
  | None => Some (Pool minconn 0)
  | Some _ => None
  end.

(** [pool.getconn()]: an idle connection if there is one; otherwise a new
    one, unless [maxconn] connections are handed out.  [connect_fault] is
    the exception [psycopg2.connect] raises, if it is called and fails.
    The first component is the exception raised, if any. *)
Definition getconn (connect_fault : option exn) (p : pool) : option failure * pool :=
  if (0 <? idle p)%nat then (None, Pool (idle p - 1) (used p + 1))
  else if (used p =? maxconn)%nat then (Some PoolError, p)
  else
    match connect_fault with
    | Some e => (Some (DbError e), p)
    | None => (None, Pool (idle p) (used p + 1))
    end.

(** [pool.putconn(conn)]: while fewer than [minconn] connections are
    idle, a connection that is still open is kept (after a rollback, if it
    is in a transaction); otherwise it is closed.  [lost] tells that the
    connection is closed or broken when it comes back. *)
Definition putconn (lost : bool) (p : pool) : pool :=
  Pool (if (idle p <? minconn)%nat && negb lost then (idle p + 1)%nat else idle p)
       (used p - 1).

(** *** get_db_connection, return_db_connection *)

Definition get_db_connection (connect_fault : option exn) (db_pool : option pool)
    : option failure * option pool :=
  match db_pool with
  | Some p =>
      match getconn connect_fault p with
      | (r, p') => (r, Some p')
      end
  | None =>
      (* Fallback to direct connection *)
      (option_map DbError connect_fault, None)
  end.

Definition return_db_connection (lost : bool) (db_pool : option pool) : option pool :=
  match db_pool with
  | Some p => Some (putconn lost p)
  | None => None
  end.

(** The state the handlers share: the module-level [db_pool] and the
    database behind it. *)
Record server := MkServer { db_pool : option pool; store : database }.

(** What the environment does to one request: the exception of
    [psycopg2.connect], if a connection is opened and that fails; the
    exception a statement (or [conn.cursor()]) raises because of the
    network or the server; whether rendering the template raises; whether
    the connection is lost by the time it is given back. *)
Record conditions := Conditions {
  connect_fault : option exn;
  statement_fault : option exn;
  render_fault : bool;
  lost : bool
}.

Inductive reply (A : Type) :=
  | Reply200 (body : A)
  | Reply500 (error : failure).
Arguments Reply200 {A} body.
Arguments Reply500 {A} error.

(** *** health_check *)

(** [{"status": "healthy", "database": "connected"}] *)
Definition healthy : list (string * string) :=
  [("status", "healthy"); ("database", "connected")].

(** [SELECT 1] reads no table.  The connection is given back on the way
    to the 200 reply only: the [except] branch does not return it, and
    there is no [finally]. *)
Definition health_check (c : conditions) (s : server)
    : reply (list (string * string)) * server :=
  match get_db_connection (connect_fault c) (db_pool s) with
  | (Some f, p) => (Reply500 f, MkServer p (store s))
  | (None, p) =>
      match statement_fault c with
      | Some e => (Reply500 (DbError e), MkServer p (store s))
      | None => (Reply200 healthy, MkServer (return_db_connection (lost c) p) (store s))
      end
  end.

(** *** search_emails, with its connection *)

(** The fault of a search that lies in opening the connection, and the
    one that comes after it. *)
Definition opening (fault : option (stage * exn)) : option exn :=
  match fault with
  | Some (AtConnect, e) => Some e
  | _ => None
  end.

Definition after_opening (fault : option (stage * exn)) : option (stage * exn) :=
  match fault with
  | Some (AtConnect, _) => None
  | _ => fault
  end.

Definition search_emails (fault : option (stage * exn)) (lost : bool)
    (data : gmap string jval) (s : server) : reply search_result * server :=
  match get_db_connection (opening fault) (db_pool s) with
  | (Some f, p) => (Reply500 f, MkServer p (store s))
  | (None, p) =>
      match App.search_emails (after_opening fault) data (store s) with
      | (Json200 body, db') =>
          (Reply200 body, MkServer (return_db_connection lost p) db')
      | (Json500 e, db') =>
          (Reply500 (DbError e), MkServer (return_db_connection lost p) db')
      end
  end.

(** *** Aggregates and three-valued conditions *)

(** [COUNT(e)]: the number of rows on which [e] is not NULL. *)
Definition sql_count {A B} (e : A → option B) (l : list A) : Z :=
  Z.of_nat (length (omap e l)).

(** [SUM(e)]: the sum of the values that are not NULL, NULL when there is
    none. *)
Definition sql_sum {A} (e : A → option Z) (l : list A) : option Z :=
  match omap e l with
  | [] => None
  | v :: vs => Some (fold_left Z.add vs v)
  end.

(** [COALESCE(v, d)] *)
Definition coalesce (v : option Z) (d : Z) : Z :=
  match v with
  | Some n => n
  | None => d
  end.

(** [CASE WHEN c THEN 1 END]: NULL unless the condition is true. *)
Definition case_when (c : option bool) : option Z :=
  match c with
  | Some true => Some 1
  | _ => None
  end.

(** [ORDER BY key DESC]: descending, NULL first. *)
Definition desc_first {R} (key : R → option Z) (r1 r2 : R) : Prop :=
  match key r1, key r2 with
  | None, _ => True
  | Some _, None => False
  | Some a, Some b => (b ≤ a)%Z
  end.

#[global] Instance desc_first_dec {R} (key : R → option Z) r1 r2 :
  Decision (desc_first key r1 r2).
Proof. unfold desc_first. destruct (key r1), (key r2); apply _. Defined.

(** *** dashboard *)

Record stats := Stats {
  total_emails : Z;
  emails_last_week : Z;
  confidential_emails : Z;
  linked_to_cases : Z;
  total_storage_bytes : Z
}.

(** [CURRENT_DATE - INTERVAL '7 days'], a timestamp at midnight, as an
    instant of the session time zone (UTC); [today] is [CURRENT_DATE] in
    days since the epoch. *)
Definition week_ago (today : Z) : Z := (today - 7) * 86400.

(** The statistics statement.  An aggregate without [GROUP BY] yields
    one row whatever the table holds. *)
Definition select_stats (today : Z) : tx stats := fun db =>
  match email_metadata db with
  | None => (Raise ProgrammingError, db)
  | Some t =>
      (Ok (Stats
             (Z.of_nat (length (rows t)))
             (sql_count (fun r => case_when (Z.leb (week_ago today) <$> e_sent_date r))
                (rows t))
             (sql_count (fun r => case_when
                                    ((fun c => String.eqb c "vertrouwelijk")
                                       <$> e_classification r))
                (rows t))
             (sql_count (fun r => case_when (Some (bool_decide (is_Some (e_zaak_id r)))))
                (rows t))
             (coalesce (sql_sum e_file_size_bytes (rows t)) 0)),
       db)
  end.

(** The select list of the second statement.  [request_date] is a column
    the record [woo_row] leaves out; the handlers below take its value as
    a function of the row. *)
Definition recent_columns (request_date : woo_row → option Z) (w : woo_row)
    : list (string * sqlval) :=
  [ ("request_id", VText (w_request_id w));
    ("requester_name", nullable VText (w_requester_name w));
    ("request_description", nullable VText (w_request_description w));
    ("request_date", nullable VDate (request_date w));
    ("status", nullable VText (w_status w));
    ("due_date", nullable VDate (w_due_date w)) ].

(** The rows [ORDER BY request_date DESC LIMIT 5] picks. *)
Definition recent_rows (request_date : woo_row → option Z) (t : table woo_row)
    : list woo_row :=
  take 5 (merge_sort (desc_first request_date) (rows t)).

Definition select_recent_woo (request_date : woo_row → option Z)
    : tx (list (list (string * sqlval))) := fun db =>
  match woo_requests db with
  | None => (Raise ProgrammingError, db)
  | Some t => (Ok (map (recent_columns request_date) (recent_rows request_date t)), db)
  end.

(** What [render_template('dashboard.html', ...)] is given. *)
Record dashboard_context := DashboardContext {
  ctx_stats : stats;
  ctx_recent_woo : list (list (string * sqlval))
}.

Definition dashboard_statements (today : Z) (request_date : woo_row → option Z)
    : tx dashboard_context :=
  stats ← select_stats today;
  recent_woo ← select_recent_woo request_date;
  mret (DashboardContext stats recent_woo).

(** A 200 reply stands for the page rendered from the context.  Nothing
    is committed; the [finally] branch gives the connection back. *)
Definition dashboard (today : Z) (request_date : woo_row → option Z)
    (c : conditions) (s : server) : reply dashboard_context * server :=
  match get_db_connection (connect_fault c) (db_pool s) with
  | (Some f, p) => (Reply500 f, MkServer p (store s))
  | (None, p) =>
      let conn := connect (store s) in
      match statement_fault c with
      | Some e =>
          (Reply500 (DbError e), MkServer (return_db_connection (lost c) p) (close conn))
      | None =>
          match execute (dashboard_statements today request_date) conn with
          | (Raise e, conn) =>
              (Reply500 (DbError e),
               MkServer (return_db_connection (lost c) p) (close conn))
          | (Ok context, conn) =>
              (if render_fault c then Reply500 TemplateError else Reply200 context,
               MkServer (return_db_connection (lost c) p) (close conn))
          end
      end
  end.

(** *** woo_dashboard *)

(** [w.id = wem.woo_request_id] *)
Definition joins (w : woo_row) (m : match_row) : bool :=
  match m_woo_request_id m with
  | Some i => Z.eqb (w_id w) i
  | None => false
  end.

(** [woo_requests w LEFT JOIN woo_email_matches wem ON ...]: every
    request with each of its matches, or once with NULLs when it has
    none. *)
Definition joined_rows (ms : list match_row) (w : woo_row)
    : list (woo_row * option match_row) :=
  match List.filter (joins w) ms with
  | [] => [(w, None)]
  | m :: l => map (fun m => (w, Some m)) (m :: l)
  end.

Definition left_join (ws : list woo_row) (ms : list match_row)
    : list (woo_row * option match_row) :=
  flat_map (joined_rows ms) ws.

(** [GROUP BY w.id]: a joined row goes to the group of its key, or opens
    a group. *)
Fixpoint add_to_groups (j : woo_row * option match_row)
    (gs : list (list (woo_row * option match_row)))
    : list (list (woo_row * option match_row)) :=
  match gs with
  | [] => [[j]]
  | g :: gs' =>
      match g with
      | (w, _) :: _ =>
          if Z.eqb (w_id w) (w_id j.1) then (j :: g) :: gs'
          else g :: add_to_groups j gs'
      | [] => g :: add_to_groups j gs'
      end
  end.

Definition group_by_id (js : list (woo_row * option match_row))
    : list (list (woo_row * option match_row)) :=
  foldr add_to_groups [] js.

(** One line of the result: the columns of the request ([w.*], fixed by
    the key of the group) and [matched_emails]. *)
Record woo_line := WooLine { request : woo_row; matched_emails : Z }.

(** [COUNT(wem.email_id)] on a group. *)
Definition count_email_id (g : list (woo_row * option match_row)) : Z :=
  sql_count (fun j : woo_row * option match_row => m ← j.2; m_email_id m) g.

Definition group_line (g : list (woo_row * option match_row)) : option woo_line :=
  match g with
  | (w, _) :: _ => Some (WooLine w (count_email_id g))
  | [] => None
  end.

Definition select_woo_requests (request_date : woo_row → option Z)
    : tx (list woo_line) := fun db =>
  match woo_requests db, woo_email_matches db with
  | Some w, Some m =>
      (Ok (merge_sort (desc_first (fun l => request_date (request l)))
             (omap group_line (group_by_id (left_join (rows w) (rows m))))),
       db)
  | _, _ => (Raise ProgrammingError, db)
  end.

Definition woo_dashboard (request_date : woo_row → option Z)
    (c : conditions) (s : server) : reply (list woo_line) * server :=
  match get_db_connection (connect_fault c) (db_pool s) with
  | (Some f, p) => (Reply500 f, MkServer p (store s))
  | (None, p) =>
      let conn := connect (store s) in
      match statement_fault c with
      | Some e =>
          (Reply500 (DbError e), MkServer (return_db_connection (lost c) p) (close conn))
      | None =>
          match execute (select_woo_requests request_date) conn with
          | (Raise e, conn) =>
              (Reply500 (DbError e),
               MkServer (return_db_connection (lost c) p) (close conn))
          | (Ok woo_requests, conn) =>
              (if render_fault c then Reply500 TemplateError else Reply200 woo_requests,
               MkServer (return_db_connection (lost c) p) (close conn))
          end
      end
  end.

(** *** Requests, one after the other *)

Inductive request_to :=
  | ToHealth (c : conditions)
  | ToDashboard (today : Z) (c : conditions)
  | ToSearch (fault : option (stage * exn)) (lost : bool) (data : gmap string jval)
  | ToWoo (c : conditions).

(** The server after a request. *)
Definition handle (request_date : woo_row → option Z) (r : request_to) (s : server)
    : server :=
  match r with
  | ToHealth c => (health_check c s).2
  | ToDashboard today c => (dashboard today request_date c s).2
  | ToSearch fault lost data => (search_emails fault lost data s).2
  | ToWoo c => (woo_dashboard request_date c s).2
  end.

Definition serve (request_date : woo_row → option Z) (rs : list request_to)
    (s : server) : server :=
  foldl (fun s r => handle request_date r s) s rs.

(** Whether the reply is a 500 carrying [PoolError]. *)
Definition refused {A} (r : reply A) : bool :=
  match r with
  | Reply500 PoolError => true
  | _ => false
  end.

(** A health check that finds the database reachable for a new
    connection but whose statement fails. *)
Definition failing_check (r : request_to) : bool :=
  match r with
  | ToHealth c =>
      match connect_fault c, statement_fault c with
      | None, Some _ => true
      | _, _ => false
      end
  | _ => false
  end.

End Server.
(** * Properties *)

(** ** The query builder *)

Section Builder.

Implicit Types (f : filters) (v q : jval) (r : email_row).

Lemma ne_str_decide v s : ne_str v s = negb (bool_decide (v = JStr s)).
Proof.
  destruct v as [| b | n | t]; simpl; try reflexivity.
  destruct (String.eqb_spec t s) as [-> | Hne].
  - by rewrite bool_decide_eq_true_2.
  - rewrite bool_decide_eq_false_2; [done | congruence].
Qed.

Lemma classification_test v :
  truthy v && ne_str v "all" = classification_applied v.
Proof. unfold classification_applied. by rewrite ne_str_decide. Qed.

(** The shape of the two lists, filter by filter. *)
Lemma conditions_of_eq f :
  conditions_of f =
    (if applied (query f) then [query_condition] else []) ++
    (if applied (date_from f) then ["sent_date >= %s"] else []) ++
    (if applied (date_to f) then ["sent_date <= %s"] else []) ++
    (if classification_applied (classification f) then ["classification = %s"] else []).
Proof.
  unfold conditions_of, build_where, applied. rewrite classification_test.
  destruct (truthy (query f)), (truthy (date_from f)), (truthy (date_to f)),
    (classification_applied (classification f)); reflexivity.
Qed.

Lemma params_of_eq f :
  params_of f =
    (if applied (query f)
     then [JStr (pattern (query f)); JStr (pattern (query f)); JStr (pattern (query f))]
     else []) ++
    (if applied (date_from f) then [date_from f] else []) ++
    (if applied (date_to f) then [date_to f] else []) ++
    (if classification_applied (classification f) then [classification f] else []).
Proof.
  unfold params_of, build_where, applied. rewrite classification_test.
  destruct (truthy (query f)), (truthy (date_from f)), (truthy (date_to f)),
    (classification_applied (classification f)); reflexivity.
Qed.

Lemma statement_parses f :
  parse_select (statement_of f)
  = Some (Select select_list "email_metadata" (shape f) "sent_date" 50).
Proof.
  unfold statement_of, shape, intended_binding. rewrite conditions_of_eq.
  destruct (applied (query f)), (applied (date_from f)), (applied (date_to f)),
    (classification_applied (classification f)); vm_compute; reflexivity.
Qed.

Lemma statement_placeholders f :
  count_placeholders (statement_of f) = length (params_of f).
Proof.
  unfold statement_of. rewrite conditions_of_eq, params_of_eq.
  destruct (applied (query f)), (applied (date_from f)), (applied (date_to f)),
    (classification_applied (classification f)); vm_compute; reflexivity.
Qed.

Lemma clause_placeholders f :
  count_placeholders (where_clause (conditions_of f)) = length (params_of f).
Proof.
  rewrite conditions_of_eq, params_of_eq.
  destruct (applied (query f)), (applied (date_from f)), (applied (date_to f)),
    (classification_applied (classification f)); vm_compute; reflexivity.
Qed.

Lemma binding_is_intended f :
  bind_where (shape f) (params_of f) = Some (intended_binding f).
Proof.
  unfold shape, intended_binding. rewrite params_of_eq.
  destruct (applied (query f)), (applied (date_from f)), (applied (date_to f)),
    (classification_applied (classification f)); reflexivity.
Qed.

(** A wildcard-wrapped pattern never ends in a lone escape character. *)
Lemma dangling_escape_percent (cs : list ascii) :
  dangling_escape (cs ++ [chr 37]) = false
  ∧ ∀ c, dangling_escape (c :: cs ++ [chr 37]) = false.
Proof.
  induction cs as [| d cs [IH1 IH2]].
  - split; [reflexivity |]. intros c. simpl. by destruct (is_chr 92 c).
  - split; [apply IH2 |]. intros c.
    specialize (IH2 d). cbn [dangling_escape app] in *.
    destruct (is_chr 92 c); [apply IH1 | apply IH2].
Qed.

Lemma list_ascii_of_string_app (s t : string) :
  list_ascii_of_string (s +:+ t) = list_ascii_of_string s ++ list_ascii_of_string t.
Proof. induction s as [| c s IH]; simpl; [done | by rewrite IH]. Qed.

Lemma pattern_not_dangling q :
  dangling_escape (list_ascii_of_string (pattern q)) = false.
Proof.
  unfold pattern. rewrite !list_ascii_of_string_app.
  change (list_ascii_of_string "%") with [chr 37].
  change ([chr 37] ++ list_ascii_of_string (str q) ++ [chr 37])
    with (chr 37 :: list_ascii_of_string (str q) ++ [chr 37]).
  apply dangling_escape_percent.
Qed.

Lemma agrees_ext c ok ok' g g' :
  agrees c ok g → ok = ok' → (∀ r, g r = g' r) → agrees c ok' g'.
Proof.
  unfold agrees. intros H <- Hg. destruct c as [g0 | e]; [| done].
  destruct H as [-> H]. split; [done |]. intros r. by rewrite H.
Qed.

Lemma agrees_piece (b : bool) d rest okd gd okr gr :
  (b = true → agrees (compile_disj d) okd gd) →
  agrees (compile_where rest) okr gr →
  agrees (compile_where ((if b then [d] else []) ++ rest))
         ((if b then okd else true) && okr)
         (fun r => (if b then gd r else true) && gr r).
Proof.
  intros Hd Hr. destruct b; [| exact Hr].
  specialize (Hd eq_refl). simpl. unfold agrees in *.
  destruct (compile_disj d) as [g1 | e1]; simpl.
  - destruct Hd as [-> Hg1].
    destruct (compile_where rest) as [g2 | e2]; simpl.
    + destruct Hr as [-> Hg2]. split; [done |]. intros r. by rewrite Hg1, Hg2.
    + done.
  - by rewrite Hd.
Qed.

Lemma text_matches_nullable p (o : option string) :
  text_matches p (nullable VText o) = opt_test p o.
Proof. by destruct o. Qed.

Lemma timestamp_matches_nullable p (o : option Z) :
  timestamp_matches p (nullable VTimestamp o) = opt_test p o.
Proof. by destruct o. Qed.

Lemma query_piece q :
  agrees (compile_disj
            [ (Pred "subject" OpILike, JStr (pattern q));
              (Pred "sender_email" OpILike, JStr (pattern q));
              (Pred "recipient_email" OpILike, JStr (pattern q)) ])
         true (matches_query q).
Proof.
  unfold matches_query. pose proof (pattern_not_dangling q) as Hd.
  generalize dependent (pattern q). intros pat Hd.
  unfold compile_disj, compile_pred. cbn -[ilike dangling_escape]. rewrite Hd.
  cbn -[ilike]. split; [done |]. intros r.
  rewrite text_matches_nullable. by rewrite orb_false_r, orb_assoc.
Qed.

Lemma from_piece v :
  truthy v = true →
  agrees (compile_disj [(Pred "sent_date" OpGe, v)])
         (bool_decide (is_Some (bound_of v))) (matches_from v).
Proof.
  intros Hv. unfold matches_from.
  destruct v as [| b | n | s]; cbn -[parse_timestamptz] in *; try done.
  destruct (parse_timestamptz s) as [t |]; cbn; [| done].
  split; [done |]. intros r. by rewrite timestamp_matches_nullable, orb_false_r.
Qed.

Lemma to_piece v :
  truthy v = true →
  agrees (compile_disj [(Pred "sent_date" OpLe, v)])
         (bool_decide (is_Some (bound_of v))) (matches_to v).
Proof.
  intros Hv. unfold matches_to.
  destruct v as [| b | n | s]; cbn -[parse_timestamptz] in *; try done.
  destruct (parse_timestamptz s) as [t |]; cbn; [| done].
  split; [done |]. intros r. by rewrite timestamp_matches_nullable, orb_false_r.
Qed.

Lemma classification_piece v :
  classification_applied v = true →
  agrees (compile_disj [(Pred "classification" OpEq, v)])
         (match v with JStr _ => true | _ => false end) (matches_classification v).
Proof.
  intros Hv. destruct v as [| b | n | s]; simpl in *; try done.
  split; [done |]. intros r. by rewrite text_matches_nullable, orb_false_r.
Qed.

Lemma compile_intended f :
  agrees (compile_where (intended_binding f)) (well_formed f) (satisfies f).
Proof.
  unfold intended_binding.
  pose proof (agrees_piece (applied (query f)) _ _ true (matches_query (query f)) _ _
    (fun _ => query_piece (query f))
    (agrees_piece (applied (date_from f)) _ _ _ _ _ _ (from_piece (date_from f))
    (agrees_piece (applied (date_to f)) _ _ _ _ _ _ (to_piece (date_to f))
    (agrees_piece (classification_applied (classification f)) _ [] _ _ true (fun _ => true)
       (classification_piece (classification f)) (conj eq_refl (fun _ => eq_refl))))))
    as H.
  rewrite app_nil_r in H.
  eapply agrees_ext; [exact H | |].
  - unfold well_formed. destruct (applied (query f)); simpl;
      by rewrite ?andb_true_r, ?andb_assoc.
  - intros r. unfold satisfies. by rewrite ?andb_true_r, ?andb_assoc.
Qed.

Lemma statement_accepted f :
  parse_statement (statement_of f) (params_of f)
  = Ok (Select select_list "email_metadata" (shape f) "sent_date" 50).
Proof.
  unfold parse_statement, check_arguments.
  rewrite statement_placeholders, Nat.ltb_irrefl, statement_parses. reflexivity.
Qed.

(** What the engine makes of the handler's statement: it is accepted
    exactly for well-formed filters, and then selects the rows satisfying
    them, by sent timestamp, eleven columns each, fifty at most. *)
Lemma prepare_cases f :
  match prepare f with
  | Ok pl =>
      well_formed f = true
      ∧ (∀ r, pl_filter pl r = satisfies f r)
      ∧ (∀ r, pl_key pl r = e_sent_date r)
      ∧ (∀ r, pl_project pl r = hit r)
      ∧ pl_limit pl = 50%nat
  | Raise _ => well_formed f = false
  end.
Proof.
  unfold prepare. rewrite statement_accepted. cbn [mbind result_bind].
  unfold plan_of. cbn [s_cols s_where s_order_by s_limit].
  rewrite binding_is_intended.
  change (compile_cols select_list) with (Ok hit).
  cbn [mbind result_bind of_option].
  pose proof (compile_intended f) as H. unfold agrees in H.
  destruct (compile_where (intended_binding f)) as [g | e]; [| exact H].
  destruct H as [Hwf Hg]. cbn.
  repeat split; try done. intros r. by destruct (e_sent_date r).
Qed.

Lemma prepare_ok f pl :
  prepare f = Ok pl →
  well_formed f = true
  ∧ (∀ r, pl_filter pl r = satisfies f r)
  ∧ (∀ r, pl_key pl r = e_sent_date r)
  ∧ (∀ r, pl_project pl r = hit r)
  ∧ pl_limit pl = 50%nat.
Proof. intros H. pose proof (prepare_cases f) as Hc. by rewrite H in Hc. Qed.

Lemma prepare_well_formed f :
  well_formed f = true → ∃ pl, prepare f = Ok pl.
Proof.
  intros H. pose proof (prepare_cases f) as Hc.
  destruct (prepare f) as [pl | e]; [by exists pl | congruence].
Qed.

End Builder.

(** C1: for every choice of the four filters, the WHERE clause (and the
    whole statement) holds exactly as many [%s] placeholders as the
    parameter list has members, and binding the parameters to the
    placeholders in order pairs every comparison with its own value: the
    wildcard-wrapped query at the three positions of the free-text
    condition, then the lower bound, the upper bound and the
    classification. *)
Theorem C1_placeholders_match_params (f : filters) :
  count_placeholders (where_clause (conditions_of f)) = length (params_of f)
  ∧ count_placeholders (statement_of f) = length (params_of f)
  ∧ (st ← parse_select (statement_of f); bind_where (s_where st) (params_of f))
    = Some (intended_binding f).
Proof.
  split; [apply clause_placeholders |].
  split; [apply statement_placeholders |].
  rewrite statement_parses. cbn [mbind option_bind s_where].
  apply binding_is_intended.
Qed.



(** ** The search handler *)

Section Search.

Implicit Types (f : filters) (db : database) (data : gmap string jval).

Lemma rollback_same db : rollback db db = db.
Proof.
  destruct db as [[[??]|] [[??]|] [[??]|] [[??]|] ?]; reflexivity.
Qed.

Lemma tx_bind_unfold {A B} (m : tx A) (k : A → tx B) db :
  (m ≫= k) db =
    match m db with
    | (Ok a, db') => k a db'
    | (Raise e, db') => (Raise e, db')
    end.
Proof. reflexivity. Qed.

Lemma execute_select_prepare f db :
  execute_select (statement_of f) (params_of f) db =
    match email_metadata db with
    | None => (Raise ProgrammingError, db)
    | Some t =>
        match prepare f with
        | Ok pl => (Ok (map (pl_project pl) (select_rows pl t)), db)
        | Raise e => (Raise e, db)
        end
    end.
Proof.
  unfold execute_select, prepare. rewrite statement_accepted.
  cbn [mbind result_bind]. reflexivity.
Qed.

(** A call that answers 200 read the email table with a statement the
    engine accepted, and left the database as it was but for one more
    audit row. *)
Lemma search_success fault data db body db' :
  search_emails fault data db = (Json200 body, db') →
  ∃ pl t a,
    prepare (read_filters data) = Ok pl
    ∧ email_metadata db = Some t
    ∧ email_audit_log db = Some a
    ∧ body = SearchResult (map (pl_project pl) (select_rows pl t))
                          (length (map (pl_project pl) (select_rows pl t)))
    ∧ db' = set_email_audit_log
              (Table (rows a ++ [search_entry (next_id a) (query (read_filters data))
                                   (length (map (pl_project pl) (select_rows pl t)))])
                     (next_id a + 1)) db.
Proof.
  unfold search_emails, search_statements, execute, connect, commit, close.
  cbn [working committed mbind tx_bind].
  set (f := read_filters data).
  assert (Hat : ∀ s, fails_at fault s db = (Ok tt, db) ∨ ∃ e, fails_at fault s db = (Raise e, db)).
  { intros s. unfold fails_at. destruct fault as [[s' e] |]; [| by left].
    destruct (decide (s' = s)); [right; by exists e | by left]. }
  destruct (Hat AtConnect) as [-> | [e ->]]; [| done].
  destruct (email_audit_log db) as [a |] eqn:Ha; cycle 1.
  { rewrite tx_bind_unfold. destruct (Hat AtSelect) as [-> | [e ->]]; [| done].
    rewrite tx_bind_unfold, execute_select_prepare.
    destruct (email_metadata db); [| done]. destruct (prepare f); [| done].
    rewrite tx_bind_unfold. destruct (Hat AtInsert) as [-> | [e ->]]; [| done].
    rewrite tx_bind_unfold. unfold insert_audit. by rewrite Ha. }
  rewrite tx_bind_unfold.
  destruct (Hat AtSelect) as [-> | [e ->]]; [| done].
  rewrite tx_bind_unfold, execute_select_prepare.
  destruct (email_metadata db) as [t |] eqn:Ht; [| done].
  destruct (prepare f) as [pl | e] eqn:Hpl; [| done].
  rewrite tx_bind_unfold.
  destruct (Hat AtInsert) as [-> | [e ->]]; [| done].
  rewrite tx_bind_unfold. unfold insert_audit. rewrite Ha. cbn [mret tx_ret working committed].
  set (db1 := set_email_audit_log _ db).
  assert (Hat1 : fails_at fault AtCommit db1 = (Ok tt, db1)
                 ∨ ∃ e, fails_at fault AtCommit db1 = (Raise e, db1)).
  { unfold fails_at. destruct fault as [[s' e] |]; [| by left].
    destruct (decide (s' = AtCommit)); [right; by exists e | by left]. }
  destruct Hat1 as [-> | [e ->]]; [| done].
  rewrite rollback_same. intros [= <- <-].
  exists pl, t, a. repeat split; done.
Qed.

Lemma rollback_rows db w :
  emails (rollback db w) = emails db
  ∧ audit_entries (rollback db w) = audit_entries db
  ∧ requests (rollback db w) = requests db
  ∧ matches (rollback db w) = matches db
  ∧ indexes (rollback db w) = indexes db.
Proof.
  unfold emails, audit_entries, requests, matches, rollback.
  destruct db as [[?|] [?|] [?|] [?|] ?]; done.
Qed.

(** A call that answers 500 leaves behind the database it found, with its
    transaction, if it had begun one, rolled back; when the read itself
    failed nothing at all has changed. *)
Lemma search_failure fault data db e db' :
  search_emails fault data db = (Json500 e, db') →
  (∃ w, db' = rollback db w)
  ∧ (∀ e0 db0, execute_select (statement_of (read_filters data))
                 (params_of (read_filters data)) db = (Raise e0, db0) → db' = db).
Proof.
  unfold search_emails, search_statements, execute, connect, commit, close.
  cbn [working committed mbind tx_bind].
  set (f := read_filters data).
  assert (Hat : ∀ s d, fails_at fault s d = (Ok tt, d) ∨ ∃ e, fails_at fault s d = (Raise e, d)).
  { intros s d. unfold fails_at. destruct fault as [[s' e1] |]; [| by left].
    destruct (decide (s' = s)); [right; by exists e1 | by left]. }
  destruct (Hat AtConnect db) as [-> | [e1 ->]].
  2: { intros [= <- <-]. split; [exists db; by rewrite rollback_same | done]. }
  rewrite tx_bind_unfold.
  destruct (Hat AtSelect db) as [-> | [e1 ->]].
  2: { intros [= <- <-]. rewrite rollback_same. split; [| done].
       exists db; by rewrite rollback_same. }
  rewrite tx_bind_unfold.
  destruct (execute_select (statement_of f) (params_of f) db) as [[rs | e1] db1] eqn:Hsel.
  2: { assert (db1 = db) as ->.
       { rewrite execute_select_prepare in Hsel.
         destruct (email_metadata db); [destruct (prepare f) |]; congruence. }
       intros [= <- <-]. rewrite rollback_same. split; [| done].
       exists db; by rewrite rollback_same. }
  set (m := _ ≫= _). destruct (m db1) as [[rs' | e1] db2]; cbn [working committed].
  - destruct (fails_at fault AtCommit db2) as [[[] | e2] ?]; [done |].
    intros [= <- <-]. split; [by eexists | congruence].
  - intros [= <- <-]. split; [by eexists | congruence].
Qed.

(** The reply and the effect of a call depend on the request body only
    through the statement, its parameters and the query value. *)
Lemma search_emails_congr fault data1 data2 db :
  statement_of (read_filters data1) = statement_of (read_filters data2) →
  params_of (read_filters data1) = params_of (read_filters data2) →
  query (read_filters data1) = query (read_filters data2) →
  search_emails fault data1 db = search_emails fault data2 db.
Proof.
  intros H1 H2 H3. unfold search_emails, search_statements.
  by rewrite H1, H2, H3.
Qed.


End Search.

(** ** The rows a search returns *)

Section Results.

Implicit Types (f : filters) (db : database) (data : gmap string jval)
  (key : email_row → option Z).

#[local] Instance desc_before_total key : Total (desc_before key).
Proof.
  intros r1 r2. unfold desc_before.
  destruct (key r1) as [a |], (key r2) as [b |]; auto.
  destruct (Z.le_ge_cases a b); auto.
Qed.

#[local] Instance desc_before_trans key : Transitive (desc_before key).
Proof.
  intros r1 r2 r3. unfold desc_before.
  destruct (key r1) as [a |], (key r2) as [b |], (key r3) as [c |]; try done.
  lia.
Qed.

Lemma desc_before_ext key key' r1 r2 :
  (∀ r, key r = key' r) → desc_before key r1 r2 → desc_before key' r1 r2.
Proof. intros H. unfold desc_before. by rewrite !H. Qed.

Lemma StronglySorted_weaken {A} (R R' : relation A) (l : list A) :
  (∀ x y, R x y → R' x y) → StronglySorted R l → StronglySorted R' l.
Proof.
  intros H. induction 1 as [| x l Hs IH Hx]; constructor; [done |].
  eapply Forall_impl; [exact Hx | auto].
Qed.

(** The rows a plan picks are the first [pl_limit] of the satisfying
    rows in descending key order. *)
Lemma select_rows_spec (pl : plan) (t : table email_row) :
  ∃ rest,
    select_rows pl t ++ rest ≡ₚ List.filter (pl_filter pl) (rows t)
    ∧ StronglySorted (desc_before (pl_key pl)) (select_rows pl t ++ rest)
    ∧ length (select_rows pl t)
      = min (pl_limit pl) (length (List.filter (pl_filter pl) (rows t))).
Proof.
  unfold select_rows.
  set (sorted := merge_sort _ _).
  exists (drop (pl_limit pl) sorted). rewrite take_drop. split; [| split].
  - apply merge_sort_Permutation.
  - apply StronglySorted_merge_sort; apply _.
  - rewrite length_take. f_equal. subst sorted.
    by rewrite merge_sort_Permutation.
Qed.

(** The same, for the statement of the handler. *)
Lemma search_rows_spec f pl db t :
  prepare f = Ok pl →
  email_metadata db = Some t →
  ∃ rest,
    map (pl_project pl) (select_rows pl t) = map hit (select_rows pl t)
    ∧ select_rows pl t ++ rest ≡ₚ matching f db
    ∧ StronglySorted newest_first (select_rows pl t ++ rest)
    ∧ length (select_rows pl t) = min 50 (length (matching f db)).
Proof.
  intros Hpl Ht. destruct (prepare_ok f pl Hpl) as (_ & Hf & Hk & Hp & Hl).
  destruct (select_rows_spec pl t) as (rest & Hperm & Hsort & Hlen).
  exists rest. unfold matching. rewrite Ht.
  rewrite <- (List.filter_ext _ _ Hf (rows t)). rewrite <- Hl.
  repeat split; try done.
  - by apply map_ext.
  - eapply StronglySorted_weaken; [| exact Hsort].
    intros x y. by apply desc_before_ext.
Qed.

End Results.

(** ** Claims about the search handler *)

(** C2 (as amended): a call that answers 200 returns rows that all
    satisfy the filters, and its [total] is the number of rows in the
    reply, which is the number of satisfying rows capped at 50. *)
Theorem C2_total_counts_returned_rows
    (fault : option (stage * exn)) (data : gmap string jval) (db : database)
    (body : search_result) (db' : database)
    (H : search_emails fault data db = (Json200 body, db')) :
  ∃ returned rest,
    results body = map hit returned
    ∧ returned ++ rest ≡ₚ matching (read_filters data) db
    ∧ total body = length (results body)
    ∧ total body = min 50 (length (matching (read_filters data) db)).
Proof.
  destruct (search_success _ _ _ _ _ H) as (pl & t & a & Hpl & Ht & _ & -> & _).
  destruct (search_rows_spec _ _ _ _ Hpl Ht) as (rest & Hhit & Hperm & _ & Hlen).
  exists (select_rows pl t), rest. cbn [results total].
  repeat split; try done. by rewrite length_map.
Qed.

Lemma C2_total_counts_returned_rows_witness :
  let data : gmap string jval := {[ "classification" := JStr "intern" ]} in
  let out := search_emails None data seeded_database in
  total (reply_body out.1) = 2%nat
  ∧ ∃ returned rest,
      results (reply_body out.1) = map hit returned
      ∧ returned ++ rest ≡ₚ matching (read_filters data) seeded_database
      ∧ total (reply_body out.1) = length (results (reply_body out.1))
      ∧ total (reply_body out.1)
        = min 50 (length (matching (read_filters data) seeded_database)).
Proof.
  split; [vm_compute; reflexivity |].
  apply (C2_total_counts_returned_rows None
           {[ "classification" := JStr "intern" ]} seeded_database _
           (search_emails None {[ "classification" := JStr "intern" ]}
              seeded_database).2).
  vm_compute. reflexivity.
Defined.

(** C2 as stated fails: with 51 emails and no filter all 51 rows satisfy
    the filters, the reply is a 200 holding 50 of them, and its [total]
    is 50. *)
Lemma C2_total_is_not_the_match_count :
  let out := search_emails None ∅ (crowded_database 51) in
  out.1 = Json200 (reply_body out.1)
  ∧ length (matching (read_filters ∅) (crowded_database 51)) = 51%nat
  ∧ length (results (reply_body out.1)) = 50%nat
  ∧ total (reply_body out.1) = 50%nat.
Proof. repeat split; vm_compute; reflexivity. Qed.

(** C4: a call that answers 200 has appended exactly one row to the audit
    log: action "search", no email reference, and a detail object holding
    the query value and, as [results_count], the [total] of the reply.
    Nothing else in the database has changed. *)
Theorem C4_one_audit_entry_per_search
    (fault : option (stage * exn)) (data : gmap string jval) (db : database)
    (body : search_result) (db' : database)
    (H : search_emails fault data db = (Json200 body, db')) :
  ∃ entry,
    audit_entries db' = audit_entries db ++ [entry]
    ∧ a_action entry = "search"
    ∧ a_email_id entry = None
    ∧ a_user_id entry = "demo_user"
    ∧ a_details entry
      = Some {[ "query" := get data "query" (JStr "");
                "results_count" := JNum (Z.of_nat (total body)) ]}
    ∧ emails db' = emails db
    ∧ requests db' = requests db
    ∧ matches db' = matches db
    ∧ indexes db' = indexes db.
Proof.
  destruct (search_success _ _ _ _ _ H) as (pl & t & a & _ & _ & Ha & -> & ->).
  eexists. unfold audit_entries, emails, requests, matches.
  cbn [set_email_audit_log email_audit_log email_metadata woo_requests
       woo_email_matches indexes from_option rows total].
  rewrite Ha. cbn [from_option]. split; [reflexivity |]. by repeat split.
Qed.

Lemma C4_one_audit_entry_per_search_witness :
  let data : gmap string jval := {[ "query" := JStr "DMS" ]} in
  let out := search_emails None data seeded_database in
  total (reply_body out.1) = 1%nat
  ∧ length (audit_entries out.2) = 6%nat
  ∧ ∃ entry,
      audit_entries out.2 = audit_entries seeded_database ++ [entry]
      ∧ a_action entry = "search"
      ∧ a_email_id entry = None
      ∧ a_user_id entry = "demo_user"
      ∧ a_details entry
        = Some {[ "query" := get data "query" (JStr "");
                  "results_count" := JNum (Z.of_nat (total (reply_body out.1))) ]}
      ∧ emails out.2 = emails seeded_database
      ∧ requests out.2 = requests seeded_database
      ∧ matches out.2 = matches seeded_database
      ∧ indexes out.2 = indexes seeded_database.
Proof.
  split; [vm_compute; reflexivity |]. split; [vm_compute; reflexivity |].
  apply (C4_one_audit_entry_per_search None {[ "query" := JStr "DMS" ]}
           seeded_database).
  vm_compute. reflexivity.
Defined.

(** C10: a call that answers 500 has committed nothing: the audit log,
    like every other table, holds the rows it held before the call; and
    when it is the read that failed, the database is untouched. *)
Theorem C10_failed_search_leaves_audit_log
    (fault : option (stage * exn)) (data : gmap string jval) (db : database)
    (e : exn) (db' : database)
    (H : search_emails fault data db = (Json500 e, db')) :
  audit_entries db' = audit_entries db
  ∧ emails db' = emails db
  ∧ requests db' = requests db
  ∧ matches db' = matches db
  ∧ indexes db' = indexes db
  ∧ (∀ e0 db0,
       execute_select (statement_of (read_filters data))
         (params_of (read_filters data)) db = (Raise e0, db0) →
       db' = db).
Proof.
  destruct (search_failure _ _ _ _ _ H) as [[w ->] Hread].
  destruct (rollback_rows db w) as (? & ? & ? & ? & ?).
  repeat split; try done.
Qed.

Lemma C10_failed_search_leaves_audit_log_witness :
  let data : gmap string jval := {[ "date_from" := JStr "2024-02-30" ]} in
  let out := search_emails None data seeded_database in
  out.1 = Json500 DataError
  ∧ audit_entries out.2 = audit_entries seeded_database
  ∧ emails out.2 = emails seeded_database
  ∧ requests out.2 = requests seeded_database
  ∧ matches out.2 = matches seeded_database
  ∧ indexes out.2 = indexes seeded_database
  ∧ (∀ e0 db0,
       execute_select (statement_of (read_filters data))
         (params_of (read_filters data)) seeded_database = (Raise e0, db0) →
       out.2 = seeded_database).
Proof.
  split; [vm_compute; reflexivity |].
  apply (C10_failed_search_leaves_audit_log None
           {[ "date_from" := JStr "2024-02-30" ]} seeded_database DataError).
  vm_compute. reflexivity.
Defined.

(** ** Absent, empty and sentinel filter values *)

Section Absent.

Implicit Types (f : filters) (db : database) (data : gmap string jval) (v : jval).

Lemma get_insert data k v d : get (<[k := v]> data) k d = v.
Proof. unfold get. by rewrite lookup_insert_eq. Qed.

Lemma get_insert_ne data k k' v d :
  k ≠ k' → get (<[k := v]> data) k' d = get data k' d.
Proof. intros. unfold get. by rewrite lookup_insert_ne. Qed.

Lemma get_delete data k d : get (delete k data) k d = d.
Proof. unfold get. by rewrite lookup_delete_eq. Qed.

Lemma get_delete_ne data k k' d :
  k ≠ k' → get (delete k data) k' d = get data k' d.
Proof. intros. unfold get. by rewrite lookup_delete_ne. Qed.

(** Setting or removing the classification leaves the other three
    filters as they were. *)
Lemma read_filters_classification data v :
  read_filters (<["classification" := v]> data)
  = Filters (query (read_filters data)) (date_from (read_filters data))
            (date_to (read_filters data)) v.
Proof.
  unfold read_filters. cbn [query date_from date_to].
  by rewrite get_insert, !get_insert_ne.
Qed.

Lemma read_filters_no_classification data :
  read_filters (delete "classification" data)
  = Filters (query (read_filters data)) (date_from (read_filters data))
            (date_to (read_filters data)) JNull.
Proof.
  unfold read_filters. cbn [query date_from date_to].
  by rewrite get_delete, !get_delete_ne.
Qed.

Lemma read_filters_empty_query data :
  read_filters (<["query" := JStr ""]> data) = read_filters (delete "query" data).
Proof.
  unfold read_filters.
  by rewrite get_insert, get_delete, !get_insert_ne, !get_delete_ne.
Qed.

(** A classification that is not applied leaves no trace in the
    statement or its parameters. *)
Lemma unapplied_classification q df dt c c' :
  classification_applied c = false →
  classification_applied c' = false →
  build_where q df dt c = build_where q df dt c'.
Proof.
  intros Hc Hc'. unfold build_where. by rewrite !classification_test, Hc, Hc'.
Qed.

Lemma search_emails_unapplied fault data db c c' :
  classification_applied c = false →
  classification_applied c' = false →
  search_emails fault (<["classification" := c]> data) db
  = search_emails fault (<["classification" := c']> data) db.
Proof.
  intros Hc Hc'. apply search_emails_congr; rewrite !read_filters_classification;
    unfold statement_of, conditions_of, params_of; cbn [query date_from date_to classification];
    by rewrite ?(unapplied_classification _ _ _ c c').
Qed.

Lemma search_emails_no_classification fault data db c :
  classification_applied c = false →
  search_emails fault (<["classification" := c]> data) db
  = search_emails fault (delete "classification" data) db.
Proof.
  intros Hc. apply search_emails_congr;
    rewrite read_filters_classification, read_filters_no_classification;
    unfold statement_of, conditions_of, params_of; cbn [query date_from date_to classification];
    by rewrite ?(unapplied_classification _ _ _ c JNull).
Qed.

(** An applied classification adds its condition and its value at the
    end. *)
Lemma applied_classification q df dt c :
  classification_applied c = true →
  build_where q df dt c
  = ((build_where q df dt JNull).1 ++ ["classification = %s"],
     (build_where q df dt JNull).2 ++ [c]).
Proof.
  intros Hc. unfold build_where. rewrite classification_test, Hc.
  destruct (truthy q), (truthy df), (truthy dt); reflexivity.
Qed.

End Absent.

(** C6: a request whose classification is "all" gives the statement, the
    parameters, the reply and the database effect of the same request
    without a classification; any other classification the handler takes
    as given adds the condition [classification = %s] with that value
    bound to it, after the other conditions, and the rows selected are
    those that satisfy the other filters and carry exactly that
    classification. *)
Theorem C6_classification_all_is_no_filter
    (fault : option (stage * exn)) (data : gmap string jval) (db : database) :
  let with_all := <["classification" := JStr "all"]> data in
  let without := delete "classification" data in
  (statement_of (read_filters with_all) = statement_of (read_filters without)
   ∧ params_of (read_filters with_all) = params_of (read_filters without)
   ∧ search_emails fault with_all db = search_emails fault without db)
  ∧ ∀ v, truthy v = true → v ≠ JStr "all" →
      let with_v := <["classification" := v]> data in
      conditions_of (read_filters with_v)
        = conditions_of (read_filters without) ++ ["classification = %s"]
      ∧ params_of (read_filters with_v) = params_of (read_filters without) ++ [v]
      ∧ well_formed (read_filters with_v)
        = well_formed (read_filters without)
          && match v with JStr _ => true | _ => false end
      ∧ ∀ pl, prepare (read_filters with_v) = Ok pl →
          ∀ r, pl_filter pl r
               = satisfies (read_filters without) r && matches_classification v r.
Proof.
  intros with_all without. split.
  - subst with_all without.
    rewrite read_filters_classification, read_filters_no_classification.
    unfold statement_of, conditions_of, params_of.
    cbn [query date_from date_to classification].
    rewrite (unapplied_classification _ _ _ (JStr "all") JNull) by done.
    repeat split. by apply search_emails_no_classification.
  - intros v Hv Hne with_v. subst with_v without.
    assert (Happ : classification_applied v = true).
    { unfold classification_applied. rewrite Hv. by rewrite bool_decide_eq_false_2. }
    rewrite read_filters_classification, read_filters_no_classification.
    unfold conditions_of, params_of. cbn [query date_from date_to classification].
    rewrite (applied_classification _ _ _ v Happ). cbn [fst snd].
    split; [done |]. split; [done |]. split.
    + unfold well_formed, applied. cbn [query date_from date_to classification].
      rewrite Happ. cbn. by rewrite andb_true_r.
    + intros pl Hpl r. destruct (prepare_ok _ _ Hpl) as (_ & -> & _).
      unfold satisfies, applied. cbn [query date_from date_to classification].
      rewrite Happ. cbn. by rewrite andb_true_r.
Qed.

Lemma C6_classification_all_is_no_filter_witness :
  let data : gmap string jval := {[ "query" := JStr "gemeente" ]} in
  let with_v := <["classification" := JStr "openbaar"]> data in
  let without := delete "classification" data in
  conditions_of (read_filters with_v)
    = conditions_of (read_filters without) ++ ["classification = %s"]
  ∧ params_of (read_filters with_v)
    = params_of (read_filters without) ++ [JStr "openbaar"].
Proof.
  destruct (C6_classification_all_is_no_filter None {[ "query" := JStr "gemeente" ]}
              fresh_database) as [_ H].
  destruct (H (JStr "openbaar") eq_refl ltac:(discriminate)) as (Hc & Hp & _).
  split; [exact Hc | exact Hp].
Defined.

(** C9: an empty string for [query] or for [classification] gives the
    statement, the parameters, the reply and the database effect of the
    same request without that field; an empty classification is thereby
    the same as "all".  A value the handler's test takes as false never
    adds a condition. *)
Theorem C9_empty_string_is_absent
    (fault : option (stage * exn)) (data : gmap string jval) (db : database) :
  (statement_of (read_filters (<["query" := JStr ""]> data))
     = statement_of (read_filters (delete "query" data))
   ∧ params_of (read_filters (<["query" := JStr ""]> data))
     = params_of (read_filters (delete "query" data))
   ∧ search_emails fault (<["query" := JStr ""]> data) db
     = search_emails fault (delete "query" data) db)
  ∧ (statement_of (read_filters (<["classification" := JStr ""]> data))
       = statement_of (read_filters (delete "classification" data))
     ∧ params_of (read_filters (<["classification" := JStr ""]> data))
       = params_of (read_filters (delete "classification" data))
     ∧ search_emails fault (<["classification" := JStr ""]> data) db
       = search_emails fault (delete "classification" data) db)
  ∧ search_emails fault (<["classification" := JStr ""]> data) db
    = search_emails fault (<["classification" := JStr "all"]> data) db
  ∧ ∀ q df dt c,
      (truthy q = false → ¬ query_condition ∈ (build_where q df dt c).1)
      ∧ (truthy c = false → ¬ "classification = %s" ∈ (build_where q df dt c).1).
Proof.
  split; [| split; [| split]].
  - rewrite read_filters_empty_query. repeat split.
    apply search_emails_congr; by rewrite read_filters_empty_query.
  - rewrite read_filters_classification, read_filters_no_classification.
    unfold statement_of, conditions_of, params_of.
    cbn [query date_from date_to classification].
    rewrite (unapplied_classification _ _ _ (JStr "") JNull) by done.
    repeat split. by apply search_emails_no_classification.
  - by apply search_emails_unapplied.
  - intros q df dt c. unfold build_where. split; intros H; rewrite H.
    + destruct (truthy df), (truthy dt), (truthy c && ne_str c "all"); cbn;
        rewrite ?elem_of_cons, elem_of_nil; intros Hin;
        repeat (destruct Hin as [Hin | Hin]; [discriminate Hin |]); done.
    + cbn [andb].
      destruct (truthy q), (truthy df), (truthy dt); cbn;
        rewrite ?elem_of_cons, elem_of_nil; intros Hin;
        repeat (destruct Hin as [Hin | Hin]; [discriminate Hin |]); done.
Qed.

(** C8: when the request names none of the four filters the statement
    has no WHERE clause and no parameter, and a call that answers 200
    returns at most 50 rows of the email table, most recent first, none
    of them older than a row left out; with 50 rows or fewer in the
    table it returns them all. *)
Theorem C8_no_filter_returns_latest
    (data : gmap string jval)
    (Hq : data !! "query" = None) (Hf : data !! "date_from" = None)
    (Ht : data !! "date_to" = None) (Hc : data !! "classification" = None) :
  where_clause (conditions_of (read_filters data)) = ""
  ∧ params_of (read_filters data) = []
  ∧ ∀ fault db body db',
      search_emails fault data db = (Json200 body, db') →
      ∃ returned rest,
        results body = map hit returned
        ∧ total body = length returned
        ∧ returned ++ rest ≡ₚ emails db
        ∧ StronglySorted newest_first (returned ++ rest)
        ∧ length returned = min 50 (length (emails db))
        ∧ ((length (emails db) ≤ 50)%nat → returned ≡ₚ emails db).
Proof.
  assert (Hread : read_filters data = Filters (JStr "") JNull JNull JNull).
  { unfold read_filters, get. by rewrite Hq, Hf, Ht, Hc. }
  split; [by rewrite Hread |]. split; [by rewrite Hread |].
  intros fault db body db' H.
  destruct (search_success _ _ _ _ _ H) as (pl & t & a & Hpl & Htab & _ & -> & _).
  destruct (search_rows_spec _ _ _ _ Hpl Htab) as (rest & Hhit & Hperm & Hsort & Hlen).
  rewrite Hread in Hperm, Hlen.
  assert (Hall : matching (Filters (JStr "") JNull JNull JNull) db = emails db).
  { unfold matching, emails. rewrite Htab. cbn [from_option].
    induction (rows t) as [| r l IH]; [done |]. cbn. by rewrite IH. }
  rewrite Hall in Hperm, Hlen.
  exists (select_rows pl t), rest. cbn [results total].
  split; [done |]. split; [by rewrite length_map |].
  repeat split; try done. intros Hfew.
  assert (Hrest : length rest = 0%nat).
  { apply Permutation_length in Hperm. rewrite length_app in Hperm. lia. }
  destruct rest; [| done]. by rewrite app_nil_r in Hperm.
Qed.

Lemma C8_no_filter_returns_latest_witness :
  let out := search_emails None ∅ seeded_database in
  out.1 = Json200 (reply_body out.1)
  ∧ length (results (reply_body out.1)) = 5%nat
  ∧ where_clause (conditions_of (read_filters ∅)) = ""
  ∧ params_of (read_filters ∅) = []
  ∧ ∀ fault db body db',
      search_emails fault ∅ db = (Json200 body, db') →
      ∃ returned rest,
        results body = map hit returned
        ∧ total body = length returned
        ∧ returned ++ rest ≡ₚ emails db
        ∧ StronglySorted newest_first (returned ++ rest)
        ∧ length returned = min 50 (length (emails db))
        ∧ ((length (emails db) ≤ 50)%nat → returned ≡ₚ emails db).
Proof.
  split; [vm_compute; reflexivity |]. split; [vm_compute; reflexivity |].
  exact (C8_no_filter_returns_latest ∅ eq_refl eq_refl eq_refl eq_refl).
Defined.

(** ** Schema setup *)

Section Schema.

Implicit Types (db : database).

Lemma same_tables_rows db db' : same_tables db db' → same_rows db db'.
Proof.
  unfold same_tables, same_rows, emails, audit_entries, requests, matches.
  by intros (-> & -> & -> & ->).
Qed.

Lemma same_tables_exist db db' : same_tables db db' → tables_exist db → tables_exist db'.
Proof. unfold same_tables, tables_exist. by intros (-> & -> & -> & ->). Qed.

Lemma same_rows_trans db1 db2 db3 :
  same_rows db1 db2 → same_rows db2 db3 → same_rows db1 db3.
Proof. unfold same_rows. intros (? & ? & ? & ?) (? & ? & ? & ?). repeat split; congruence. Qed.

(** The [CREATE TABLE] statements always succeed; they add the missing
    tables, empty, and touch nothing else. *)
Lemma create_tables_ok db :
  ∃ db',
    create_tables db = (Ok tt, db')
    ∧ tables_exist db'
    ∧ same_rows db db'
    ∧ indexes db' = indexes db
    ∧ (tables_exist db → db' = db).
Proof.
  unfold tables_exist, same_rows, emails, audit_entries, requests, matches.
  destruct db as [[e |] [a |] [w |] [m |] ix]; eexists; (split; [reflexivity |]);
    cbn; rewrite ?is_Some_alt; repeat split; tauto.
Qed.

Lemma set_indexes_same db : set_indexes (indexes db) db = db.
Proof. by destruct db. Qed.

Lemma create_index_ok name db :
  is_Some (email_metadata db) →
  ∃ db',
    create_index name db = (Ok tt, db')
    ∧ same_tables db db'
    ∧ indexes db' = {[name]} ∪ indexes db
    ∧ (name ∈ indexes db → db' = db).
Proof.
  intros [t Ht]. unfold create_index.
  destruct (decide (name ∈ indexes db)) as [Hin | Hout].
  - exists db. repeat split; try done. apply set_eq. intros x.
    rewrite elem_of_union, elem_of_singleton. split; [tauto |]. by intros [-> |].
  - rewrite Ht. eexists. split; [reflexivity |]. by repeat split.
Qed.

Lemma create_indexes_ok db :
  is_Some (email_metadata db) →
  ∃ db',
    create_indexes db = (Ok tt, db')
    ∧ same_tables db db'
    ∧ indexes db' = index_names ∪ indexes db
    ∧ (index_names ⊆ indexes db → db' = db).
Proof.
  intros He. unfold create_indexes.
  destruct (create_index_ok "idx_email_sender" db He) as (db1 & E1 & T1 & I1 & F1).
  assert (He1 : is_Some (email_metadata db1)) by (destruct T1 as (-> & _); done).
  destruct (create_index_ok "idx_email_subject" db1 He1) as (db2 & E2 & T2 & I2 & F2).
  assert (He2 : is_Some (email_metadata db2)) by (destruct T2 as (-> & _); done).
  destruct (create_index_ok "idx_email_date" db2 He2) as (db3 & E3 & T3 & I3 & F3).
  rewrite tx_bind_unfold, E1. cbv beta iota.
  rewrite tx_bind_unfold, E2. cbv beta iota. rewrite E3.
  exists db3. split; [done |]. split; [| split].
  - unfold same_tables in *. destruct T1 as (? & ? & ? & ?), T2 as (? & ? & ? & ?),
      T3 as (? & ? & ? & ?). repeat split; congruence.
  - rewrite I3, I2, I1. unfold index_names. apply set_eq. intros x.
    rewrite !elem_of_union. tauto.
  - intros Hsub.
    assert (H1 : "idx_email_sender" ∈ indexes db).
    { apply Hsub. unfold index_names. rewrite !elem_of_union, !elem_of_singleton. tauto. }
    assert (H2 : "idx_email_subject" ∈ indexes db).
    { apply Hsub. unfold index_names. rewrite !elem_of_union, !elem_of_singleton. tauto. }
    assert (H3 : "idx_email_date" ∈ indexes db).
    { apply Hsub. unfold index_names. rewrite !elem_of_union, !elem_of_singleton. tauto. }
    specialize (F1 H1). subst db1. specialize (F2 H2). subst db2. by apply F3.
Qed.

(** A successful insert appends one row to its table. *)
Lemma insert_email_effect v db db' :
  insert_email v db = (Ok tt, db') →
  ∃ r,
    e_message_id r = v_message_id v
    ∧ emails db' = emails db ++ [r]
    ∧ is_Some (email_metadata db')
    ∧ email_audit_log db' = email_audit_log db
    ∧ woo_requests db' = woo_requests db
    ∧ woo_email_matches db' = woo_email_matches db
    ∧ indexes db' = indexes db.
Proof.
  unfold insert_email, emails.
  destruct (email_metadata db) as [t |] eqn:Ht; [| done].
  destruct (parse_timestamptz (v_sent_date v)); [| done].
  destruct (existsb _ _); [done |]. intros [= <-].
  eexists. cbn. by repeat split.
Qed.

Lemma insert_woo_effect v db db' :
  insert_woo v db = (Ok tt, db') →
  ∃ r,
    w_request_id r = v_request_id v
    ∧ requests db' = requests db ++ [r]
    ∧ is_Some (woo_requests db')
    ∧ email_metadata db' = email_metadata db
    ∧ email_audit_log db' = email_audit_log db
    ∧ woo_email_matches db' = woo_email_matches db
    ∧ indexes db' = indexes db.
Proof.
  unfold insert_woo, requests.
  destruct (woo_requests db) as [t |] eqn:Ht; [| done].
  destruct (parse_date_text (v_due_date v)); [| done].
  destruct (existsb _ _); [done |]. intros [= <-].
  eexists. cbn. by repeat split.
Qed.

Lemma insert_audit_effect email_id action user_id details db db' :
  insert_audit email_id action user_id details db = (Ok tt, db') →
  ∃ r,
    a_email_id r = email_id ∧ a_action r = action
    ∧ audit_entries db' = audit_entries db ++ [r]
    ∧ is_Some (email_audit_log db')
    ∧ email_metadata db' = email_metadata db
    ∧ woo_requests db' = woo_requests db
    ∧ woo_email_matches db' = woo_email_matches db
    ∧ indexes db' = indexes db.
Proof.
  unfold insert_audit, audit_entries.
  destruct (email_audit_log db) as [t |] eqn:Ht; [| done].
  match goal with |- context [if ?c then _ else _] => destruct c end; [| done].
  intros [= <-]. eexists. cbn. by repeat split.
Qed.

End Schema.

Section Seeding.

Implicit Types (db : database).

Lemma tx_bind_ok {A B} (m : tx A) (k : A → tx B) db b db' :
  (m ≫= k) db = (Ok b, db') →
  ∃ a db1, m db = (Ok a, db1) ∧ k a db1 = (Ok b, db').
Proof.
  rewrite tx_bind_unfold. destruct (m db) as [[a | e] db1]; [| done].
  intros H. by exists a, db1.
Qed.

Lemma for_each_insert_email l db db' :
  for_each insert_email l db = (Ok tt, db') →
  ∃ rs,
    map e_message_id rs = map v_message_id l
    ∧ emails db' = emails db ++ rs
    ∧ (is_Some (email_metadata db) → is_Some (email_metadata db'))
    ∧ email_audit_log db' = email_audit_log db
    ∧ woo_requests db' = woo_requests db
    ∧ woo_email_matches db' = woo_email_matches db
    ∧ indexes db' = indexes db.
Proof.
  revert db. induction l as [| v l IH]; intros db; cbn [for_each].
  - intros [= <-]. exists []. by rewrite app_nil_r.
  - intros H. apply tx_bind_ok in H as ([] & db1 & H1 & H2).
    apply insert_email_effect in H1 as (r & Hr & He & Hs & Ha & Hw & Hm & Hi).
    apply IH in H2 as (rs & Hrs & He' & Hs' & Ha' & Hw' & Hm' & Hi').
    exists (r :: rs). cbn [map]. rewrite Hr, Hrs, He', He, <- app_assoc.
    repeat split; try congruence. auto.
Qed.

Lemma for_each_insert_audit
    (l : list (Z * string * string * gmap string jval)) db db' :
  for_each (fun log_data : Z * string * string * gmap string jval =>
              let '(email_id, action, user_id, details) := log_data in
              insert_audit (Some email_id) action user_id details) l db
    = (Ok tt, db') →
  ∃ rs,
    map a_email_id rs = map (fun d => Some d.1.1.1) l
    ∧ map a_action rs = map (fun d => d.1.1.2) l
    ∧ audit_entries db' = audit_entries db ++ rs
    ∧ (is_Some (email_audit_log db) → is_Some (email_audit_log db'))
    ∧ email_metadata db' = email_metadata db
    ∧ woo_requests db' = woo_requests db
    ∧ woo_email_matches db' = woo_email_matches db
    ∧ indexes db' = indexes db.
Proof.
  revert db. induction l as [| [[[i act] usr] det] l IH]; intros db; cbn [for_each].
  - intros [= <-]. exists []. by rewrite app_nil_r.
  - intros H. apply tx_bind_ok in H as ([] & db1 & H1 & H2).
    apply insert_audit_effect in H1 as (r & Hr1 & Hr2 & He & Hs & Ha & Hw & Hm & Hi).
    apply IH in H2 as (rs & Hrs1 & Hrs2 & He' & Hs' & Ha' & Hw' & Hm' & Hi').
    exists (r :: rs). cbn [map fst snd]. rewrite Hr1, Hr2, Hrs1, Hrs2, He', He, <- app_assoc.
    repeat split; try congruence. auto.
Qed.

(** The seeding block, when it succeeds, adds the five sample emails, the
    one sample request and five audit rows for emails 1 to 5, and nothing
    else. *)
Lemma insert_sample_data_effect db db' :
  insert_sample_data db = (Ok tt, db') →
  ∃ new_emails new_request new_entries,
    emails db' = emails db ++ new_emails
    ∧ map e_message_id new_emails = map v_message_id sample_emails
    ∧ requests db' = requests db ++ [new_request]
    ∧ w_request_id new_request = "WOO-2024-001"
    ∧ audit_entries db' = audit_entries db ++ new_entries
    ∧ map a_email_id new_entries = [Some 1; Some 2; Some 3; Some 4; Some 5]
    ∧ map a_action new_entries = ["created"; "created"; "created"; "created"; "created"]
    ∧ woo_email_matches db' = woo_email_matches db
    ∧ indexes db' = indexes db
    ∧ (tables_exist db → tables_exist db').
Proof.
  unfold insert_sample_data. intros H.
  apply tx_bind_ok in H as ([] & db1 & H1 & H).
  apply tx_bind_ok in H as ([] & db2 & H2 & H3).
  apply for_each_insert_email in H1 as (es & Hes & E1 & S1 & A1 & W1 & M1 & I1).
  apply insert_woo_effect in H2 as (w & Hw & R2 & S2 & E2 & A2 & M2 & I2).
  apply for_each_insert_audit in H3 as (ls & Hl1 & Hl2 & L3 & S3 & E3 & W3 & M3 & I3).
  exists es, w, ls.
  assert (Hemails : emails db' = emails db ++ es).
  { unfold emails in *. by rewrite E3, E2. }
  assert (Hreq : requests db' = requests db ++ [w]).
  { unfold requests in *. by rewrite W3, R2, W1. }
  assert (Haud : audit_entries db' = audit_entries db ++ ls).
  { unfold audit_entries in *. by rewrite L3, A2, A1. }
  repeat split; try done.
  - congruence.
  - congruence.
  - destruct H as (He & _). rewrite E3, E2. auto.
  - destruct H as (_ & Ha & _). apply S3. by rewrite A2, A1.
  - by rewrite W3.
  - destruct H as (_ & _ & _ & Hm). by rewrite M3, M2, M1.
Qed.

Lemma emails_nonempty_count db t :
  email_metadata db = Some t →
  Z.eqb (Z.of_nat (length (rows t))) 0 = bool_decide (emails db = []).
Proof.
  intros Ht. unfold emails. rewrite Ht. cbn [from_option].
  by destruct (rows t).
Qed.

(** Setup on an initialised database does nothing. *)
Lemma ensure_schema_fixed db : initialised db → ensure_schema db = (Ok tt, db).
Proof.
  intros (He & Ha & Hw & Hm & Hix & Hrows). unfold ensure_schema.
  destruct (create_tables_ok db) as (db1 & E1 & _ & _ & _ & F1).
  rewrite (F1 (conj He (conj Ha (conj Hw Hm)))) in E1.
  destruct (create_indexes_ok db He) as (db2 & E2 & _ & _ & F2).
  rewrite (F2 Hix) in E2.
  rewrite tx_bind_unfold, E1. cbv beta iota.
  rewrite tx_bind_unfold, E2. cbv beta iota.
  rewrite tx_bind_unfold. unfold count_emails.
  destruct He as [t Ht]. rewrite Ht. cbv beta iota.
  rewrite (emails_nonempty_count db t Ht), bool_decide_eq_false_2 by done.
  reflexivity.
Qed.

(** What a successful setup leaves behind. *)
Lemma ensure_schema_effect db db' :
  ensure_schema db = (Ok tt, db') →
  initialised db'
  ∧ matches db' = matches db
  ∧ (emails db ≠ [] → same_rows db db')
  ∧ (emails db = [] →
     ∃ new_emails new_request new_entries,
       emails db' = new_emails
       ∧ map e_message_id new_emails = map v_message_id sample_emails
       ∧ requests db' = requests db ++ [new_request]
       ∧ w_request_id new_request = "WOO-2024-001"
       ∧ audit_entries db' = audit_entries db ++ new_entries
       ∧ map a_email_id new_entries = [Some 1; Some 2; Some 3; Some 4; Some 5]
       ∧ map a_action new_entries
         = ["created"; "created"; "created"; "created"; "created"]).
Proof.
  unfold ensure_schema. intros H.
  apply tx_bind_ok in H as ([] & db1 & H1 & H).
  apply tx_bind_ok in H as ([] & db2 & H2 & H).
  apply tx_bind_ok in H as (count & db3 & H3 & H).
  destruct (create_tables_ok db) as (db1' & E1 & X1 & R1 & I1 & _).
  rewrite E1 in H1. injection H1 as <-.
  assert (He1 : is_Some (email_metadata db1')) by apply X1.
  destruct (create_indexes_ok db1' He1) as (db2' & E2 & T2 & I2 & _).
  rewrite E2 in H2. injection H2 as <-.
  pose proof (same_tables_exist _ _ T2 X1) as X2.
  pose proof (same_rows_trans _ _ _ R1 (same_tables_rows _ _ T2)) as R2.
  assert (Hsub : index_names ⊆ indexes db2').
  { rewrite I2. intros x Hx. rewrite elem_of_union. by left. }
  unfold count_emails in H3. destruct X2 as (He2 & Ha2 & Hw2 & Hm2).
  destruct He2 as [t Ht]. rewrite Ht in H3. injection H3 as <- <-.
  rewrite (emails_nonempty_count db2' t Ht) in H.
  assert (Hemails : emails db2' = emails db) by apply R2.
  destruct (decide (emails db = [])) as [Hempty | Hrows].
  - rewrite bool_decide_eq_true_2 in H by congruence.
    apply insert_sample_data_effect in H
      as (es & w & ls & E & Hes & R & Hw & L & Hl1 & Hl2 & M & I & X).
    destruct R2 as (R2e & R2a & R2r & R2m).
    assert (Hne : emails db' ≠ []).
    { rewrite E. destruct es; [done |]. by destruct (emails db2'). }
    split; [| split; [| split]].
    + destruct X as (? & ? & ? & ?); [by repeat split; eauto |].
      repeat split; try done. by rewrite I.
    + unfold matches in *. by rewrite M.
    + done.
    + intros _. exists es, w, ls. rewrite E, R, L, R2e, R2a, R2r, Hempty.
      by repeat split.
  - rewrite bool_decide_eq_false_2 in H by congruence. injection H as <-.
    split; [| split; [| split]]; try done.
    + repeat split; eauto. congruence.
    + apply R2.
Qed.

End Seeding.

(** ** The start-up loop *)

Section Loop.

Implicit Types (db : database) (faults : nat → option exn).

Lemma close_commit_execute {A} (m : tx A) db r conn :
  execute m (connect db) = (r, conn) →
  close (commit conn) = working conn ∧ m db = (r, working conn)
  ∧ committed conn = db.
Proof.
  unfold execute, connect, commit, close. cbn [working committed].
  destruct (m db) as [r' db'] eqn:Hm. intros [= <- <-]. cbn [working committed].
  by rewrite rollback_same.
Qed.

(** An attempt without a fault succeeds exactly when its statements do,
    and commits what they made. *)
Lemma attempt_ok db db' :
  attempt None db = (Ok tt, db') ↔ ensure_schema db = (Ok tt, db').
Proof.
  unfold attempt.
  destruct (execute ensure_schema (connect db)) as [r conn] eqn:He.
  destruct (close_commit_execute _ _ _ _ He) as (Hc & Hm & _).
  rewrite Hm, Hc. destruct r as [[] | e]; split; intros [= <-]; done.
Qed.

Lemma attempt_ok_inv fault db db' :
  attempt fault db = (Ok tt, db') → fault = None.
Proof. destruct fault; [done | done]. Qed.

(** A failed attempt leaves every table with the rows it had. *)
Lemma attempt_raise fault db e db' :
  attempt fault db = (Raise e, db') →
  same_rows db db' ∧ indexes db' = indexes db
  ∧ (fault = Some e → db' = db).
Proof.
  unfold attempt. destruct fault as [e' |].
  - intros [= <- <-]. by repeat split.
  - destruct (execute ensure_schema (connect db)) as [r conn] eqn:He.
    destruct (close_commit_execute _ _ _ _ He) as (_ & _ & Hc).
    destruct r as [[] | e0]; [done |]. intros [= <- <-].
    unfold close. rewrite Hc.
    destruct (rollback_rows db (working conn)) as (? & ? & ? & ? & ?).
    by repeat split.
Qed.

Lemma attempt_initialised fault db :
  initialised db →
  attempt fault db = (match fault with Some e => Raise e | None => Ok tt end, db).
Proof.
  intros Hi. destruct fault as [e |]; [done |].
  apply attempt_ok. by apply ensure_schema_fixed.
Qed.

Lemma max_retries_eq : max_retries = 30%nat.
Proof. reflexivity. Qed.

(** One round of the loop. *)
Lemma init_loop_step fuel faults rc db evs :
  (rc < max_retries)%nat →
  init_loop (S fuel) faults rc db evs =
    match attempt (faults rc) db with
    | (Ok _, db') => InitRun (Returned (Some true)) db' (evs ++ [Attempt rc])
    | (Raise OperationalError, db') =>
        if (rc + 1 <? max_retries)%nat
        then init_loop fuel faults (rc + 1) db' ((evs ++ [Attempt rc]) ++ [Sleep 2])
        else InitRun (Raised OperationalError) db' (evs ++ [Attempt rc])
    | (Raise e, db') => InitRun (Raised e) db' (evs ++ [Attempt rc])
    end.
Proof.
  intros Hrc. cbn [init_loop]. apply Nat.ltb_lt in Hrc. by rewrite Hrc.
Qed.





(** While the attempts fail on injected connection errors the loop goes
    on, on the same database. *)
Lemma init_loop_faults k fuel faults rc db evs :
  (∀ n, (rc ≤ n < rc + k)%nat → faults n = Some OperationalError) →
  (rc + k < max_retries)%nat →
  init_loop (k + fuel) faults rc db evs
  = init_loop fuel faults (rc + k) db
      (evs ++ concat (map (fun n => [Attempt n; Sleep 2]) (seq rc k))).
Proof.
  revert rc evs. induction k as [| k IH]; intros rc evs Hf Hk.
  - cbn. by rewrite Nat.add_0_r, app_nil_r.
  - cbn [Nat.add]. rewrite init_loop_step by lia.
    rewrite (Hf rc) by lia. cbn [attempt].
    assert (Hnext : (rc + 1 <? max_retries)%nat = true) by (apply Nat.ltb_lt; lia).
    rewrite Hnext, IH; [| intros n Hn; apply Hf; lia | lia].
    replace (rc + 1 + k)%nat with (rc + S k)%nat by lia.
    f_equal. cbn [seq map concat]. rewrite <- !app_assoc.
    by replace (S rc) with (rc + 1)%nat by lia.
Qed.

(** The outcome of the call is that of attempt number [k], when the [k]
    attempts before it fail on injected connection errors. *)
Lemma init_database_after k faults db :
  (k < max_retries)%nat →
  (∀ n, (n < k)%nat → faults n = Some OperationalError) →
  init_database faults db =
    match attempt (faults k) db with
    | (Ok _, db') => InitRun (Returned (Some true)) db' (retry_trace k)
    | (Raise OperationalError, db') =>
        if (k + 1 <? max_retries)%nat
        then init_loop (max_retries - k) faults (k + 1) db'
               (retry_trace k ++ [Sleep 2])
        else InitRun (Raised OperationalError) db' (retry_trace k)
    | (Raise e, db') => InitRun (Raised e) db' (retry_trace k)
    end.
Proof.
  intros Hk Hf. unfold init_database.
  replace (S max_retries) with (k + S (max_retries - k))%nat by lia.
  rewrite (init_loop_faults k) by (intros; try apply Hf; lia).
  cbn [Nat.add app]. rewrite init_loop_step by done.
  unfold retry_trace.
  destruct (attempt (faults k) db) as [[[] | e] db']; [done |].
  by destruct e.
Qed.

(** On an initialised database the loop changes nothing, however it
    ends. *)
Lemma init_loop_initialised fuel faults rc db evs :
  initialised db → db_after (init_loop fuel faults rc db evs) = db.
Proof.
  intros Hi. revert rc evs. induction fuel as [| fuel IH]; intros rc evs; [done |].
  cbn [init_loop]. destruct (rc <? max_retries)%nat; [| done].
  rewrite (attempt_initialised _ _ Hi).
  destruct (faults rc) as [e |]; [| done].
  destruct e; try done.
  destruct (rc + 1 <? max_retries)%nat; [apply IH | done].
Qed.

(** A call that returns [True] ran the setup statements to the end, on a
    database holding the rows of the one it was given. *)
Lemma init_loop_returned fuel faults rc db evs :
  ending (init_loop fuel faults rc db evs) = Returned (Some true) →
  ∃ db0,
    same_rows db db0
    ∧ ensure_schema db0 = (Ok tt, db_after (init_loop fuel faults rc db evs)).
Proof.
  revert rc db evs. induction fuel as [| fuel IH]; intros rc db evs; [done |].
  cbn [init_loop]. destruct (rc <? max_retries)%nat; [| done].
  destruct (attempt (faults rc) db) as [[[] | e] db'] eqn:Ha.
  - intros _. cbn [db_after]. exists db. split; [by repeat split |].
    pose proof (attempt_ok_inv _ _ _ Ha) as Hf. rewrite Hf in Ha.
    by apply attempt_ok.
  - destruct (attempt_raise _ _ _ _ Ha) as (Hrows & _).
    destruct e; try done.
    destruct (rc + 1 <? max_retries)%nat; [| done].
    intros H. destruct (IH _ _ _ H) as (db0 & Hr & He).
    exists db0. split; [| done]. by eapply same_rows_trans.
Qed.

End Loop.

(** ** Claims about schema setup and start-up *)

(** C5: after a start-up that returned [True], a second start-up leaves
    the database exactly as the first one left it: no table, index or row
    is added, whatever connection failures it meets, and without
    failures it returns [True] at its first attempt.  The first start-up
    seeds exactly when the email table is empty: then the email table
    holds the five sample emails, and one request and five audit rows
    (for emails 1 to 5) have been added; otherwise every table keeps its
    rows. *)
Theorem C5_schema_setup_idempotent
    (faults1 faults2 : nat → option exn) (db : database)
    (H : ending (init_database faults1 db) = Returned (Some true)) :
  let db1 := db_after (init_database faults1 db) in
  db_after (init_database faults2 db1) = db1
  ∧ init_database (fun _ => None) db1 = InitRun (Returned (Some true)) db1 [Attempt 0]
  ∧ initialised db1
  ∧ matches db1 = matches db
  ∧ (emails db ≠ [] →
     emails db1 = emails db
     ∧ requests db1 = requests db
     ∧ audit_entries db1 = audit_entries db)
  ∧ (emails db = [] →
     ∃ new_request new_entries,
       map e_message_id (emails db1) = map v_message_id sample_emails
       ∧ length (emails db1) = 5%nat
       ∧ requests db1 = requests db ++ [new_request]
       ∧ w_request_id new_request = "WOO-2024-001"
       ∧ audit_entries db1 = audit_entries db ++ new_entries
       ∧ map a_email_id new_entries = [Some 1; Some 2; Some 3; Some 4; Some 5]
       ∧ map a_action new_entries
         = ["created"; "created"; "created"; "created"; "created"]).
Proof.
  intros db1.
  destruct (init_loop_returned (S max_retries) faults1 0 db [] H)
    as (db0 & (Re & Ra & Rr & Rm) & Hrun).
  change (db_after (init_loop (S max_retries) faults1 0 db [])) with db1 in Hrun.
  clearbody db1.
  destruct (ensure_schema_effect _ _ Hrun) as (Hinit & Hm & Hfull & Hempty).
  split; [by apply init_loop_initialised |].
  split.
  { rewrite (init_database_after 0); [| rewrite max_retries_eq; lia | intros; lia].
    by rewrite (attempt_initialised None db1 Hinit). }
  split; [done |]. split; [congruence |]. split.
  - intros Hne. destruct Hfull as (? & ? & ? & ?); [congruence |].
    repeat split; congruence.
  - intros He. destruct Hempty as (es & w & ls & E & Hes & R & Hw & L & Hl1 & Hl2);
      [congruence |].
    exists w, ls. rewrite E, R, L, Rr, Ra. repeat split; try done.
    apply (f_equal length) in Hes. by rewrite !length_map in Hes.
Qed.

Lemma C5_schema_setup_idempotent_witness :
  let db1 := db_after (init_database (fun _ => None) fresh_database) in
  db_after (init_database (fun _ => Some OperationalError) db1) = db1
  ∧ init_database (fun _ => None) db1 = InitRun (Returned (Some true)) db1 [Attempt 0]
  ∧ initialised db1
  ∧ matches db1 = matches fresh_database
  ∧ (emails fresh_database ≠ [] →
     emails db1 = emails fresh_database
     ∧ requests db1 = requests fresh_database
     ∧ audit_entries db1 = audit_entries fresh_database)
  ∧ (emails fresh_database = [] →
     ∃ new_request new_entries,
       map e_message_id (emails db1) = map v_message_id sample_emails
       ∧ length (emails db1) = 5%nat
       ∧ requests db1 = requests fresh_database ++ [new_request]
       ∧ w_request_id new_request = "WOO-2024-001"
       ∧ audit_entries db1 = audit_entries fresh_database ++ new_entries
       ∧ map a_email_id new_entries = [Some 1; Some 2; Some 3; Some 4; Some 5]
       ∧ map a_action new_entries
         = ["created"; "created"; "created"; "created"; "created"]).
Proof.
  apply (C5_schema_setup_idempotent (fun _ => None) (fun _ => Some OperationalError)
           fresh_database).
  vm_compute. reflexivity.
Defined.


(** ** Further properties *)

Section Patterns.

Lemma like_percent_nil (s : list ascii) : like [chr 37] s = true.
Proof. induction s as [| c s IH]; [reflexivity |]. cbn in *. exact IH. Qed.

(** [%] followed by [p] matches the texts one of whose suffixes [p]
    matches. *)
Lemma like_percent (p s : list ascii) :
  like (chr 37 :: p) s = true ↔ ∃ pre t, s = pre ++ t ∧ like p t = true.
Proof.
  change (like (chr 37 :: p) s)
    with ((fix any (t : list ascii) : bool :=
             like p t || match t with [] => false | _ :: t' => any t' end) s).
  induction s as [| c s IH].
  - rewrite orb_false_r. split.
    + intros H. by exists [], [].
    + intros (pre & t & Hs & H). symmetry in Hs.
      apply app_eq_nil in Hs as [-> ->]. exact H.
  - rewrite orb_true_iff, IH. split.
    + intros [H | (pre & t & -> & H)].
      * by exists [], (c :: s).
      * by exists (c :: pre), t.
    + intros (pre & t & Hs & H). destruct pre as [| d pre].
      * left. cbn in Hs. by rewrite Hs.
      * right. injection Hs as -> ->. by exists pre, t.
Qed.

(** Ordinary characters followed by [%] match the texts that begin with
    them. *)
Lemma like_ordinary_prefix (p s : list ascii) :
  forallb ordinary p = true →
  like (p ++ [chr 37]) s = true ↔ ∃ post, s = p ++ post.
Proof.
  revert s. induction p as [| c p IH]; intros s Hp.
  - cbn [app]. rewrite like_percent_nil. split; [| done]. intros _. by exists s.
  - cbn [forallb] in Hp. apply andb_true_iff in Hp as [Hc Hp].
    unfold ordinary in Hc. apply negb_true_iff in Hc.
    apply orb_false_iff in Hc as [Hc H92]. apply orb_false_iff in Hc as [H37 H95].
    cbn [app like]. rewrite H37, H95, H92.
    destruct s as [| d s].
    + split; [done | by intros [post Hpost]].
    + rewrite andb_true_iff, (IH s Hp). split.
      * intros [Hcd [post ->]]. apply Ascii.eqb_eq in Hcd as ->. by exists post.
      * intros [post [= -> ->]]. split; [apply Ascii.eqb_refl | by exists post].
Qed.

Lemma ordinary_lower (c : ascii) : ordinary (lower c) = ordinary c.
Proof.
  destruct c as [[] [] [] [] [] [] [] []]; reflexivity.
Qed.

(** Ordinary characters in front of a pattern match themselves. *)
Lemma like_ordinary_app (p rest s : list ascii) :
  forallb ordinary p = true →
  like (p ++ rest) s = true ↔ ∃ t, s = p ++ t ∧ like rest t = true.
Proof.
  revert s. induction p as [| c p IH]; intros s Hp.
  - cbn [app]. split; [intros H; by exists s | by intros (t & -> & H)].
  - cbn [forallb] in Hp. apply andb_true_iff in Hp as [Hc Hp].
    unfold ordinary in Hc. apply negb_true_iff in Hc.
    apply orb_false_iff in Hc as [Hc H92]. apply orb_false_iff in Hc as [H37 H95].
    cbn [app like]. rewrite H37, H95, H92.
    destruct s as [| d s].
    + split; [done | by intros (t & Ht & _)].
    + rewrite andb_true_iff, (IH s Hp). split.
      * intros [Hcd (t & -> & Ht)]. apply Ascii.eqb_eq in Hcd as ->. by exists t.
      * intros (t & [= -> ->] & Ht). split; [apply Ascii.eqb_refl | by exists t].
Qed.

(** [_] stands for any one character. *)
Lemma like_underscore (rest s : list ascii) :
  like (chr 95 :: rest) s = true ↔ ∃ c t, s = c :: t ∧ like rest t = true.
Proof.
  change (like (chr 95 :: rest) s)
    with (match s with [] => false | _ :: s' => like rest s' end).
  destruct s as [| d s]; split; try done.
  - by intros (c & t & Hs & _).
  - intros H. by exists d, s.
  - by intros (c & t & [= -> ->] & H).
Qed.

Lemma ordinary_map_lower (l : list ascii) :
  forallb ordinary l = true → forallb ordinary (map lower l) = true.
Proof.
  induction l as [| c l IH]; [done |]. cbn [forallb map].
  intros [Hc Hl]%andb_true_iff. by rewrite ordinary_lower, Hc, IH.
Qed.

End Patterns.

Section QueryAlone.

(** The wrapped pattern of a text without pattern characters matches the
    texts in which it occurs. *)
Lemma ilike_substring (q s : string) :
  plain_text q = true →
  ilike ("%" +:+ q +:+ "%") s = true
  ↔ ∃ pre post, folded s = pre ++ folded q ++ post.
Proof.
  unfold plain_text, folded. intros Hq.
  unfold ilike. rewrite !list_ascii_of_string_app, !map_app.
  change (map lower (list_ascii_of_string "%")) with [chr 37]. cbn [app].
  pose proof (ordinary_map_lower _ Hq) as Hl.
  rewrite like_percent. split.
  - intros (pre & t & Hs & Ht).
    apply (like_ordinary_prefix _ _ Hl) in Ht as [post ->]. by exists pre, post.
  - intros (pre & post & Hs). exists pre, (map lower (list_ascii_of_string q) ++ post).
    split; [done |]. apply (like_ordinary_prefix _ _ Hl). by exists post.
Qed.

Lemma ilike_underscore (q1 q2 s : string) :
  plain_text q1 = true → plain_text q2 = true →
  ilike ("%" +:+ (q1 +:+ "_" +:+ q2) +:+ "%") s = true
  ↔ ∃ pre c post, folded s = pre ++ folded q1 ++ [c] ++ folded q2 ++ post.
Proof.
  unfold plain_text, folded. intros H1 H2.
  pose proof (ordinary_map_lower _ H1) as L1.
  pose proof (ordinary_map_lower _ H2) as L2.
  unfold ilike. rewrite !list_ascii_of_string_app, !map_app.
  change (map lower (list_ascii_of_string "%")) with [chr 37].
  change (map lower (list_ascii_of_string "_")) with [chr 95].
  rewrite <- !app_assoc. cbn [app].
  rewrite like_percent. split.
  - intros (pre & t & Hs & Ht).
    apply (like_ordinary_app _ _ _ L1) in Ht as (t1 & -> & Ht).
    apply like_underscore in Ht as (c & t2 & -> & Ht).
    apply (like_ordinary_prefix _ _ L2) in Ht as [post ->].
    by exists pre, c, post.
  - intros (pre & c & post & Hs). eexists pre, _. split; [exact Hs |].
    apply (like_ordinary_app _ _ _ L1). eexists. split; [reflexivity |].
    apply like_underscore. eexists c, _. split; [reflexivity |].
    apply (like_ordinary_prefix _ _ L2). by exists post.
Qed.

Lemma ilike_percent (q1 q2 s : string) :
  plain_text q1 = true → plain_text q2 = true →
  ilike ("%" +:+ (q1 +:+ "%" +:+ q2) +:+ "%") s = true
  ↔ ∃ pre mid post, folded s = pre ++ folded q1 ++ mid ++ folded q2 ++ post.
Proof.
  unfold plain_text, folded. intros H1 H2.
  pose proof (ordinary_map_lower _ H1) as L1.
  pose proof (ordinary_map_lower _ H2) as L2.
  unfold ilike. rewrite !list_ascii_of_string_app, !map_app.
  change (map lower (list_ascii_of_string "%")) with [chr 37].
  rewrite <- !app_assoc. cbn [app].
  rewrite like_percent. split.
  - intros (pre & t & Hs & Ht).
    apply (like_ordinary_app _ _ _ L1) in Ht as (t1 & -> & Ht).
    apply like_percent in Ht as (mid & t2 & -> & Ht).
    apply (like_ordinary_prefix _ _ L2) in Ht as [post ->].
    by exists pre, mid, post.
  - intros (pre & mid & post & Hs). eexists pre, _. split; [exact Hs |].
    apply (like_ordinary_app _ _ _ L1). eexists. split; [reflexivity |].
    apply like_percent. eexists mid, _. split; [reflexivity |].
    apply (like_ordinary_prefix _ _ L2). by exists post.
Qed.

(** When the query alone is applied, the row test of the accepted
    statement is the pattern [%q%] matched against the three columns. *)
Lemma query_alone_filter (f : filters) (q : string) (pl : plan) (r : email_row) :
  query_alone f q → prepare f = Ok pl →
  pl_filter pl r = true ↔ some_column (fun s => ilike ("%" +:+ q +:+ "%") s = true) r.
Proof.
  intros (Hq & Hne & Hdf & Hdt & Hcl) Hpl.
  destruct (prepare_ok f pl Hpl) as (_ & Hfil & _). rewrite Hfil.
  unfold satisfies, applied. rewrite Hq, Hdf, Hdt, Hcl.
  assert (Htr : truthy (JStr q) = true) by (by destruct q).
  rewrite Htr, !andb_true_r. unfold matches_query, pattern, some_column. cbn [str].
  rewrite !orb_true_iff. destruct (e_subject r) as [s |]; cbn [opt_test].
  - split.
    + intros [[H | H] | H]; [left; by exists s | right; by left | right; by right].
    + intros [(s' & [= <-] & H) | [H | H]]; auto.
  - split.
    + intros [[H | H] | H]; [done | right; by left | right; by right].
    + intros [(s' & Hs & _) | [H | H]]; [done | auto | auto].
Qed.

Lemma some_column_iff (P Q : string → Prop) (r : email_row) :
  (∀ s, P s ↔ Q s) → some_column P r ↔ some_column Q r.
Proof.
  intros H. unfold some_column. rewrite !H.
  split; (intros [(s & Hs & Hp) | Hrest]; [left; exists s; by rewrite H in * | by right]).
Qed.

End QueryAlone.

(** X1: a request that applies a free-text query [q] alone, where [q]
    is an ASCII text without the characters [%], [_] and backslash.  The
    handler wraps [q] in [%] and binds it three times; on a row whose
    three columns hold ASCII texts, the statement the engine accepts
    selects the row exactly when [q] occurs, letter case aside, in the
    subject, the sender address or the recipient address. *)
Theorem X1_wrapped_pattern_is_substring
    (f : filters) (q : string) (r : email_row)
    (Hf : query_alone f q)
    (Hq : plain_text q = true) (Hqa : ascii_text q = true)
    (Hr : ascii_row r = true) :
  params_of f = [JStr ("%" +:+ q +:+ "%"); JStr ("%" +:+ q +:+ "%");
                 JStr ("%" +:+ q +:+ "%")]
  ∧ ∀ pl, prepare f = Ok pl →
      (pl_filter pl r = true
       ↔ some_column (fun s => ∃ pre post, folded s = pre ++ folded q ++ post) r).
Proof.
  split.
  - destruct Hf as (Hquery & Hne & Hdf & Hdt & Hcl).
    rewrite params_of_eq. unfold applied, pattern. rewrite Hquery, Hdf, Hdt, Hcl.
    by destruct q.
  - intros pl Hpl. rewrite (query_alone_filter f q pl r Hf Hpl).
    apply some_column_iff. intros s. by apply ilike_substring.
Qed.

Lemma X1_wrapped_pattern_is_substring_witness :
  let f := Filters (JStr "DMS") JNull JNull JNull in
  let r := mail "Project update - DMS implementatie voortgang" "j.doe@haarlem.nl" in
  (∃ pl, prepare f = Ok pl ∧ pl_filter pl r = true)
  ∧ params_of f = [JStr ("%" +:+ "DMS" +:+ "%"); JStr ("%" +:+ "DMS" +:+ "%");
                   JStr ("%" +:+ "DMS" +:+ "%")]
  ∧ ∀ pl, prepare f = Ok pl →
      (pl_filter pl r = true
       ↔ some_column (fun s => ∃ pre post, folded s = pre ++ folded "DMS" ++ post) r).
Proof.
  split.
  - destruct (prepare_well_formed (Filters (JStr "DMS") JNull JNull JNull) eq_refl)
      as [pl Hpl].
    exists pl. split; [exact Hpl |].
    destruct (prepare_ok _ pl Hpl) as (_ & Hfil & _). rewrite Hfil. reflexivity.
  - apply (X1_wrapped_pattern_is_substring (Filters (JStr "DMS") JNull JNull JNull) "DMS"
             (mail "Project update - DMS implementatie voortgang" "j.doe@haarlem.nl")).
    + by repeat split.
    + reflexivity.
    + reflexivity.
    + reflexivity.
Defined.

(** X2: the handler does not escape the query before it wraps it, so
    [_] and [%] in it act as pattern characters.  For ASCII texts [q1],
    [q2] without pattern characters and a row whose three columns hold
    ASCII texts: when the query [q1_q2] alone is applied, the accepted
    statement selects the row exactly when one of the columns holds [q1],
    any one character and [q2] in a row; when the query [q1%q2] alone is
    applied, exactly when one of them holds [q2] somewhere after [q1]
    (letter case aside). *)
Theorem X2_query_wildcards
    (f : filters) (q1 q2 : string) (r : email_row)
    (H1 : plain_text q1 = true) (H2 : plain_text q2 = true)
    (A1 : ascii_text q1 = true) (A2 : ascii_text q2 = true)
    (Hr : ascii_row r = true) :
  (query_alone f (q1 +:+ "_" +:+ q2) →
   ∀ pl, prepare f = Ok pl →
     (pl_filter pl r = true
      ↔ some_column (fun s => ∃ pre c post,
                        folded s = pre ++ folded q1 ++ [c] ++ folded q2 ++ post) r))
  ∧ (query_alone f (q1 +:+ "%" +:+ q2) →
     ∀ pl, prepare f = Ok pl →
       (pl_filter pl r = true
        ↔ some_column (fun s => ∃ pre mid post,
                          folded s = pre ++ folded q1 ++ mid ++ folded q2 ++ post) r)).
Proof.
  split; intros Hf pl Hpl; rewrite (query_alone_filter f _ pl r Hf Hpl);
    apply some_column_iff; intros s.
  - by apply ilike_underscore.
  - by apply ilike_percent.
Qed.

Lemma X2_query_wildcards_witness :
  let f1 := Filters (JStr "a_c") JNull JNull JNull in
  let f2 := Filters (JStr "a%c") JNull JNull JNull in
  let r := mail "xABCx" "j.doe@haarlem.nl" in
  (∃ pl, prepare f1 = Ok pl ∧ pl_filter pl r = true)
  ∧ (∃ pl, prepare f2 = Ok pl ∧ pl_filter pl r = true)
  ∧ (∀ pl, prepare f1 = Ok pl →
       (pl_filter pl r = true
        ↔ some_column (fun s => ∃ pre c post,
                          folded s = pre ++ folded "a" ++ [c] ++ folded "c" ++ post) r))
  ∧ (∀ pl, prepare f2 = Ok pl →
       (pl_filter pl r = true
        ↔ some_column (fun s => ∃ pre mid post,
                          folded s = pre ++ folded "a" ++ mid ++ folded "c" ++ post) r)).
Proof.
  split; [| split; [| split]].
  - destruct (prepare_well_formed (Filters (JStr "a_c") JNull JNull JNull) eq_refl)
      as [pl Hpl].
    exists pl. split; [exact Hpl |].
    destruct (prepare_ok _ pl Hpl) as (_ & Hfil & _). rewrite Hfil. reflexivity.
  - destruct (prepare_well_formed (Filters (JStr "a%c") JNull JNull JNull) eq_refl)
      as [pl Hpl].
    exists pl. split; [exact Hpl |].
    destruct (prepare_ok _ pl Hpl) as (_ & Hfil & _). rewrite Hfil. reflexivity.
  - apply (proj1 (X2_query_wildcards (Filters (JStr "a_c") JNull JNull JNull) "a" "c"
                    (mail "xABCx" "j.doe@haarlem.nl")
                    eq_refl eq_refl eq_refl eq_refl eq_refl)).
    by repeat split.
  - apply (proj2 (X2_query_wildcards (Filters (JStr "a%c") JNull JNull JNull) "a" "c"
                    (mail "xABCx" "j.doe@haarlem.nl")
                    eq_refl eq_refl eq_refl eq_refl eq_refl)).
    by repeat split.
Defined.

(** A number or [true] is no timestamp text and no classification. *)
Lemma not_text_date (v : jval) :
  not_text v = true →
  (if applied v then bool_decide (is_Some (bound_of v)) else true) = false.
Proof.
  unfold not_text, applied. destruct v as [| [] | n | s]; cbn; try done.
  - destruct (Z.eqb n 0); done.
  - by rewrite andb_false_r.
Qed.

Lemma not_text_classification (v : jval) :
  not_text v = true →
  (if classification_applied v
   then match v with JStr _ => true | _ => false end else true) = false.
Proof.
  unfold not_text, classification_applied. destruct v as [| [] | n | s]; cbn; try done.
  - destruct (Z.eqb n 0); [done |]. by rewrite bool_decide_eq_false_2.
  - by rewrite andb_false_r.
Qed.

(** X3: a date filter or a classification that is a number or [true]
    makes the call answer 500, whatever else the request holds and
    whatever the environment does, and the database is left exactly as it
    was. *)
Theorem X3_non_text_filter_is_refused
    (fault : option (stage * exn)) (data : gmap string jval) (db : database)
    (H : not_text (get data "date_from" JNull)
         || not_text (get data "date_to" JNull)
         || not_text (get data "classification" JNull) = true) :
  ∃ e, search_emails fault data db = (Json500 e, db).
Proof.
  assert (Hwf : well_formed (read_filters data) = false).
  { unfold well_formed, read_filters. cbn [date_from date_to classification].
    apply orb_true_iff in H as [H | H]; [apply orb_true_iff in H as [H | H] |].
    - by rewrite (not_text_date _ H).
    - by rewrite (not_text_date _ H), andb_false_r.
    - by rewrite (not_text_classification _ H), andb_false_r. }
  pose proof (prepare_cases (read_filters data)) as Hc.
  destruct (prepare (read_filters data)) as [pl | e0] eqn:Hpl;
    [destruct Hc as [Hc _]; congruence |].
  unfold search_emails, search_statements, execute, connect, close.
  cbn [working committed].
  assert (Hat : ∀ s, fails_at fault s db = (Ok tt, db)
                     ∨ ∃ e, fails_at fault s db = (Raise e, db)).
  { intros s. unfold fails_at. destruct fault as [[s' e] |]; [| by left].
    destruct (decide (s' = s)); [right; by exists e | by left]. }
  destruct (Hat AtConnect) as [-> | [e ->]]; [| by exists e].
  rewrite tx_bind_unfold.
  destruct (Hat AtSelect) as [-> | [e ->]];
    [| exists e; cbn [working committed]; by rewrite rollback_same].
  rewrite tx_bind_unfold, execute_select_prepare, Hpl.
  destruct (email_metadata db); eexists; cbn [working committed];
    by rewrite rollback_same.
Qed.

Lemma X3_non_text_filter_is_refused_witness :
  ∃ e, search_emails None {[ "date_from" := JNum 20240117 ]} seeded_database
       = (Json500 e, seeded_database).
Proof.
  exact (X3_non_text_filter_is_refused None {[ "date_from" := JNum 20240117 ]}
           seeded_database eq_refl).
Defined.

(** On the database a first start-up leaves behind, a search for the
    classification "vertrouwelijk" returns exactly the seeded confidential
    email, and a search for "dms" returns the email whose subject holds
    "DMS implementatie". *)
Example seeded_search_scenarios :
  let confidential :=
    search_emails None {[ "classification" := JStr "vertrouwelijk" ]} seeded_database in
  let dms := search_emails None {[ "query" := JStr "dms" ]} seeded_database in
  total (reply_body confidential.1) = 1%nat
  ∧ map (assoc "message_id") (results (reply_body confidential.1))
    = [Some (VText "demo-003@haarlem.nl")]
  ∧ total (reply_body dms.1) = 1%nat
  ∧ map (assoc "subject") (results (reply_body dms.1))
    = [Some (VText "Project update - DMS implementatie voortgang")].
Proof. repeat split; vm_compute; reflexivity. Qed.

(** ** More on the search handler *)

Section SearchMore.

Implicit Types (f : filters) (db : database) (data : gmap string jval).


(** A list in descending key order begins with the rows without a key. *)
Lemma desc_before_split (key : email_row → option Z) (l : list email_row) :
  StronglySorted (desc_before key) l →
  ∃ u d, l = u ++ d
         ∧ Forall (fun r => key r = None) u
         ∧ Forall (fun r => is_Some (key r)) d.
Proof.
  induction 1 as [| x l Hs IH Hx].
  - by exists [], [].
  - destruct (key x) as [a |] eqn:Hk.
    + exists [], (x :: l). split; [done |]. split; [done |].
      constructor; [by rewrite Hk |].
      eapply Forall_impl; [exact Hx |]. intros y. unfold desc_before. rewrite Hk.
      by destruct (key y).
    + destruct IH as (u & d & -> & Hu & Hd).
      exists (x :: u), d. split; [done |]. split; [by constructor | done].
Qed.

(** A row that passes an applied date filter has a sent date. *)
Lemma satisfies_dated f r :
  truthy (date_from f) || truthy (date_to f) = true →
  satisfies f r = true → is_Some (e_sent_date r).
Proof.
  intros Hd Hs. unfold satisfies, applied in Hs.
  apply andb_true_iff in Hs as [Hs _]. apply andb_true_iff in Hs as [Hs Hto].
  apply andb_true_iff in Hs as [_ Hfrom].
  apply orb_true_iff in Hd as [Hd | Hd]; rewrite Hd in *.
  - unfold matches_from in Hfrom. destruct (bound_of (date_from f)); [| done].
    by destruct (e_sent_date r).
  - unfold matches_to in Hto. destruct (bound_of (date_to f)); [| done].
    by destruct (e_sent_date r).
Qed.

(** The text of a date alone denotes midnight at the start of that day. *)
Lemma date_only_bound (s : string) (d : Z) :
  parse_date_text s = Some d → parse_timestamptz s = Some (d * 86400).
Proof.
  unfold parse_date_text, parse_timestamptz.
  destruct (parse_date (list_ascii_of_string s)) as [[d' [| c cs]] |]; try done.
  by intros [= ->].
Qed.

Lemma date_text_truthy (s : string) (d : Z) :
  parse_date_text s = Some d → truthy (JStr s) = true.
Proof. by destruct s. Qed.

(** The rows of a 200 reply all satisfy the filters. *)
Lemma search_returned fault data db body db' :
  search_emails fault data db = (Json200 body, db') →
  ∃ returned,
    results body = map hit returned
    ∧ StronglySorted newest_first returned
    ∧ Forall (fun r => satisfies (read_filters data) r = true) returned.
Proof.
  intros H.
  destruct (search_success _ _ _ _ _ H) as (pl & t & a & Hpl & Ht & _ & -> & _).
  destruct (search_rows_spec _ _ _ _ Hpl Ht) as (rest & Hhit & Hperm & Hsort & _).
  exists (select_rows pl t). cbn [results]. split; [done |].
  split; [by eapply StronglySorted_app_1_l |].
  apply Forall_forall. intros r Hr.
  assert (Hin : r ∈ matching (read_filters data) db).
  { rewrite <- Hperm. apply elem_of_app. by left. }
  unfold matching in Hin. rewrite Ht in Hin.
  apply list_elem_of_In, filter_In in Hin. apply Hin.
Qed.

(** What an applied date filter with a readable bound asks of a row. *)
Lemma satisfies_to f r (s : string) (b : Z) :
  satisfies f r = true → date_to f = JStr s → truthy (JStr s) = true →
  parse_timestamptz s = Some b →
  ∃ t, e_sent_date r = Some t ∧ (t ≤ b)%Z.
Proof.
  intros Hs Hf Htr Hb. unfold satisfies, applied in Hs. rewrite Hf, Htr in Hs.
  apply andb_true_iff in Hs as [Hs _]. apply andb_true_iff in Hs as [_ Hto].
  unfold matches_to, bound_of in Hto. rewrite Hb in Hto.
  destruct (e_sent_date r) as [t |]; [| done]. exists t. split; [done |].
  by apply Z.leb_le.
Qed.

Lemma satisfies_from f r (s : string) (b : Z) :
  satisfies f r = true → date_from f = JStr s → truthy (JStr s) = true →
  parse_timestamptz s = Some b →
  ∃ t, e_sent_date r = Some t ∧ (b ≤ t)%Z.
Proof.
  intros Hs Hf Htr Hb. unfold satisfies, applied in Hs. rewrite Hf, Htr in Hs.
  apply andb_true_iff in Hs as [Hs _]. apply andb_true_iff in Hs as [Hs _].
  apply andb_true_iff in Hs as [_ Hfrom].
  unfold matches_from, bound_of in Hfrom. rewrite Hb in Hfrom.
  destruct (e_sent_date r) as [t |]; [| done]. exists t. split; [done |].
  by apply Z.leb_le.
Qed.

End SearchMore.



(** X5: in a 200 reply the emails without a sent date come before all
    the dated ones; when a date filter is applied there is none of
    them. *)
Theorem X5_undated_emails_come_first
    (fault : option (stage * exn)) (data : gmap string jval) (db : database)
    (body : search_result) (db' : database)
    (H : search_emails fault data db = (Json200 body, db')) :
  ∃ undated dated,
    results body = map hit (undated ++ dated)
    ∧ Forall (fun r => e_sent_date r = None) undated
    ∧ Forall (fun r => is_Some (e_sent_date r)) dated
    ∧ (truthy (get data "date_from" JNull) || truthy (get data "date_to" JNull) = true →
       undated = []).
Proof.
  destruct (search_returned _ _ _ _ _ H) as (returned & Hres & Hsort & Hsat).
  destruct (desc_before_split _ _ Hsort) as (u & d & -> & Hu & Hd).
  exists u, d. repeat split; try done.
  intros Hdate. destruct u as [| r u]; [done |].
  apply Forall_cons in Hu as [Hr _].
  apply Forall_app in Hsat as [Hsat _]. apply Forall_cons in Hsat as [Hsat _].
  apply (satisfies_dated (read_filters data) _ Hdate) in Hsat. rewrite Hr in Hsat. by destruct Hsat.
Qed.

Lemma X5_undated_emails_come_first_witness :
  let data : gmap string jval := {[ "date_from" := JStr "2024-01-17" ]} in
  let out := search_emails None data seeded_database in
  total (reply_body out.1) = 3%nat
  ∧ ∃ undated dated,
      results (reply_body out.1) = map hit (undated ++ dated)
      ∧ Forall (fun r => e_sent_date r = None) undated
      ∧ Forall (fun r => is_Some (e_sent_date r)) dated
      ∧ (truthy (get data "date_from" JNull) || truthy (get data "date_to" JNull) = true →
         undated = []).
Proof.
  split; [vm_compute; reflexivity |].
  apply (X5_undated_emails_come_first None {[ "date_from" := JStr "2024-01-17" ]}
           seeded_database _
           (search_emails None {[ "date_from" := JStr "2024-01-17" ]} seeded_database).2).
  vm_compute. reflexivity.
Defined.

(** X6: a date filter given as a date alone ([YYYY-MM-DD]) stands for
    midnight at the start of that day: with it as [date_to] no email sent
    later on that day is returned, with it as [date_from] every email
    returned was sent at or after that midnight. *)
Theorem X6_date_only_filter_is_midnight
    (fault : option (stage * exn)) (data : gmap string jval) (db : database)
    (body : search_result) (db' : database) (s : string) (d : Z)
    (Hs : parse_date_text s = Some d)
    (H : search_emails fault data db = (Json200 body, db')) :
  ∃ returned,
    results body = map hit returned
    ∧ (data !! "date_to" = Some (JStr s) →
       Forall (fun r => ∃ t, e_sent_date r = Some t ∧ (t ≤ d * 86400)%Z) returned)
    ∧ (data !! "date_from" = Some (JStr s) →
       Forall (fun r => ∃ t, e_sent_date r = Some t ∧ (d * 86400 ≤ t)%Z) returned).
Proof.
  destruct (search_returned _ _ _ _ _ H) as (returned & Hres & _ & Hsat).
  pose proof (date_text_truthy _ _ Hs) as Htr.
  pose proof (date_only_bound _ _ Hs) as Hb.
  exists returned. split; [done |]. split; intros Hd;
    (eapply Forall_impl; [exact Hsat |]); intros r Hr.
  - apply (satisfies_to _ _ s _ Hr); [| done | done].
    unfold read_filters, get. cbn [date_to]. by rewrite Hd.
  - apply (satisfies_from _ _ s _ Hr); [| done | done].
    unfold read_filters, get. cbn [date_from]. by rewrite Hd.
Qed.

Lemma X6_date_only_filter_is_midnight_witness :
  let data : gmap string jval := {[ "date_to" := JStr "2024-01-17" ]} in
  let out := search_emails None data seeded_database in
  total (reply_body out.1) = 2%nat
  ∧ ∃ returned,
      results (reply_body out.1) = map hit returned
      ∧ (data !! "date_to" = Some (JStr "2024-01-17") →
         Forall (fun r => ∃ t, e_sent_date r = Some t ∧ (t ≤ 19739 * 86400)%Z) returned)
      ∧ (data !! "date_from" = Some (JStr "2024-01-17") →
         Forall (fun r => ∃ t, e_sent_date r = Some t ∧ (19739 * 86400 ≤ t)%Z) returned).
Proof.
  split; [vm_compute; reflexivity |].
  apply (X6_date_only_filter_is_midnight None {[ "date_to" := JStr "2024-01-17" ]}
           seeded_database _
           (search_emails None {[ "date_to" := JStr "2024-01-17" ]} seeded_database).2
           "2024-01-17" 19739).
  - vm_compute. reflexivity.
  - vm_compute. reflexivity.
Defined.



(** ** More on the start-up *)

Section StartupMore.

Implicit Types (db : database) (faults : nat → option exn).

Lemma restored_refl db : restored db db.
Proof. by repeat split. Qed.

Lemma restored_trans db1 db2 db3 :
  restored db1 db2 → restored db2 db3 → restored db1 db3.
Proof.
  unfold restored. intros (? & ? & ? & ? & ?) (? & ? & ? & ? & ?).
  repeat split; congruence.
Qed.

Lemma rollback_restored db w : restored db (rollback db w).
Proof.
  unfold restored, rollback. destruct db as [[?|] [?|] [?|] [?|] ?]; by repeat split.
Qed.

(** A failed attempt leaves the database as it was, sequences apart. *)
Lemma attempt_restored fault db e db' :
  attempt fault db = (Raise e, db') → restored db db'.
Proof.
  unfold attempt. destruct fault as [e' |].
  - intros [= <- <-]. apply restored_refl.
  - destruct (execute ensure_schema (connect db)) as [r conn] eqn:He.
    destruct (close_commit_execute _ _ _ _ He) as (_ & _ & Hc).
    destruct r as [[] | e0]; [done |]. intros [= <- <-].
    unfold close. rewrite Hc. apply rollback_restored.
Qed.

Lemma init_loop_raised fuel faults rc db evs e :
  ending (init_loop fuel faults rc db evs) = Raised e →
  restored db (db_after (init_loop fuel faults rc db evs)).
Proof.
  revert rc db evs. induction fuel as [| fuel IH]; intros rc db evs; [done |].
  cbn [init_loop]. destruct (rc <? max_retries)%nat; [| done].
  destruct (attempt (faults rc) db) as [[[] | e0] db'] eqn:Ha; [done |].
  pose proof (attempt_restored _ _ _ _ Ha) as Hr.
  destruct e0; try (intros _; exact Hr).
  destruct (rc + 1 <? max_retries)%nat; [| intros _; exact Hr].
  intros H. eapply restored_trans; [exact Hr | by apply IH].
Qed.












End StartupMore.

(** X8: a start-up that ends in an exception has committed nothing:
    every table that existed has the rows it had, no table and no index
    has been added, whatever the attempts before the last one did. *)
Theorem X8_failed_startup_changes_nothing
    (faults : nat → option exn) (db : database) (e : exn)
    (H : ending (init_database faults db) = Raised e) :
  restored db (db_after (init_database faults db)).
Proof. by eapply init_loop_raised. Qed.

Lemma X8_failed_startup_changes_nothing_witness :
  ending (init_database (fun _ => None) (emptied_database 6)) = Raised IntegrityError
  ∧ restored (emptied_database 6)
      (db_after (init_database (fun _ => None) (emptied_database 6))).
Proof.
  split; [vm_compute; reflexivity |].
  apply (X8_failed_startup_changes_nothing (fun _ => None) (emptied_database 6)
           IntegrityError).
  vm_compute. reflexivity.
Defined.



(** ** The connection pool *)

Section PoolFacts.

Implicit Types (p : Server.pool) (s : Server.server) (c : Server.conditions).

(** Taking a connection and giving it back leaves as many handed out as
    before, and the pool within its bound. *)
Lemma get_then_return (cf : option exn) (lost : bool) p :
  match Server.getconn cf p with
  | (None, p') =>
      Server.used (Server.putconn lost p') = Server.used p
      ∧ Server.used p' = S (Server.used p)
      ∧ ((Server.idle p + Server.used p ≤ Server.maxconn)%nat →
         (Server.idle p' + Server.used p' ≤ Server.maxconn)%nat
         ∧ (Server.idle (Server.putconn lost p') + Server.used (Server.putconn lost p')
            ≤ Server.maxconn)%nat)
  | (Some f, p') =>
      p' = p
      ∧ (cf = None → Server.used p = Server.maxconn)
      ∧ (cf = None → f = Server.PoolError)
  end.
Proof.
  unfold Server.getconn, Server.putconn, Server.maxconn, Server.minconn.
  destruct p as [i u]. cbn [Server.idle Server.used].
  destruct (0 <? i)%nat eqn:Hi; [apply Nat.ltb_lt in Hi | apply Nat.ltb_ge in Hi].
  - cbn [Server.idle Server.used].
    destruct ((i - 1 <? 1)%nat && negb lost); cbn [Server.idle Server.used];
      repeat split; intros; lia.
  - destruct (u =? 10)%nat eqn:Hu; [apply Nat.eqb_eq in Hu | apply Nat.eqb_neq in Hu].
    + by repeat split.
    + destruct cf as [e |]; [by repeat split |].
      cbn [Server.idle Server.used].
      destruct ((i <? 1)%nat && negb lost) eqn:Hk; cbn [Server.idle Server.used];
        repeat split; intros; lia.
Qed.

(** With [maxconn] connections handed out nobody gets one. *)
Lemma getconn_exhausted (cf : option exn) :
  Server.getconn cf (Server.Pool 0 Server.maxconn)
  = (Some Server.PoolError, Server.Pool 0 Server.maxconn).
Proof. reflexivity. Qed.

(** The statements of the two dashboards read; they leave the database
    alone. *)
Lemma select_stats_reads today db : (Server.select_stats today db).2 = db.
Proof. unfold Server.select_stats. by destruct (email_metadata db). Qed.

Lemma select_recent_woo_reads rd db : (Server.select_recent_woo rd db).2 = db.
Proof. unfold Server.select_recent_woo. by destruct (woo_requests db). Qed.

Lemma dashboard_statements_reads today rd db :
  (Server.dashboard_statements today rd db).2 = db.
Proof.
  unfold Server.dashboard_statements. rewrite tx_bind_unfold.
  pose proof (select_stats_reads today db) as H1.
  destruct (Server.select_stats today db) as [[st | e] db1]; cbn in H1; subst db1;
    [| done].
  rewrite tx_bind_unfold.
  pose proof (select_recent_woo_reads rd db) as H2.
  by destruct (Server.select_recent_woo rd db) as [[rw | e] db2]; cbn in H2; subst db2.
Qed.

Lemma select_woo_requests_reads rd db : (Server.select_woo_requests rd db).2 = db.
Proof.
  unfold Server.select_woo_requests.
  by destruct (woo_requests db), (woo_email_matches db).
Qed.

(** Running statements that only read, then giving the connection up. *)
Lemma close_after_reading {A} (m : tx A) db :
  (m db).2 = db →
  ∃ r, execute m (connect db) = (r, Connection db db) ∧ m db = (r, db).
Proof.
  intros H. unfold execute, connect. cbn [working committed].
  destruct (m db) as [r db1]. cbn in H. subst db1. by exists r.
Qed.

Lemma close_same db : close (Connection db db) = db.
Proof. unfold close. cbn. apply rollback_same. Qed.

(** The dashboard, step by step. *)
Lemma dashboard_eq today rd c s :
  Server.dashboard today rd c s =
    match Server.get_db_connection (Server.connect_fault c) (Server.db_pool s) with
    | (Some f, p) => (Server.Reply500 f, Server.MkServer p (Server.store s))
    | (None, p) =>
        (match Server.statement_fault c with
         | Some e => Server.Reply500 (Server.DbError e)
         | None =>
             match (Server.dashboard_statements today rd (Server.store s)).1 with
             | Raise e => Server.Reply500 (Server.DbError e)
             | Ok context =>
                 if Server.render_fault c then Server.Reply500 Server.TemplateError
                 else Server.Reply200 context
             end
         end,
         Server.MkServer (Server.return_db_connection (Server.lost c) p) (Server.store s))
    end.
Proof.
  unfold Server.dashboard.
  destruct (Server.get_db_connection _ _) as [[f |] p]; [done |].
  destruct (Server.statement_fault c); [by unfold connect; rewrite close_same |].
  destruct (close_after_reading (Server.dashboard_statements today rd) (Server.store s)
              (dashboard_statements_reads _ _ _)) as (r & -> & ->).
  cbn [fst]. destruct r; by rewrite close_same.
Qed.

Lemma woo_dashboard_eq rd c s :
  Server.woo_dashboard rd c s =
    match Server.get_db_connection (Server.connect_fault c) (Server.db_pool s) with
    | (Some f, p) => (Server.Reply500 f, Server.MkServer p (Server.store s))
    | (None, p) =>
        (match Server.statement_fault c with
         | Some e => Server.Reply500 (Server.DbError e)
         | None =>
             match (Server.select_woo_requests rd (Server.store s)).1 with
             | Raise e => Server.Reply500 (Server.DbError e)
             | Ok lines =>
                 if Server.render_fault c then Server.Reply500 Server.TemplateError
                 else Server.Reply200 lines
             end
         end,
         Server.MkServer (Server.return_db_connection (Server.lost c) p) (Server.store s))
    end.
Proof.
  unfold Server.woo_dashboard.
  destruct (Server.get_db_connection _ _) as [[f |] p]; [done |].
  destruct (Server.statement_fault c); [by unfold connect; rewrite close_same |].
  destruct (close_after_reading (Server.select_woo_requests rd) (Server.store s)
              (select_woo_requests_reads _ _)) as (r & -> & ->).
  cbn [fst]. destruct r; by rewrite close_same.
Qed.

(** What a request does to the pool: the number of connections handed
    out stays, or grows by one. *)
Lemma get_db_connection_pool (cf : option exn) (lost : bool) p :
  match Server.get_db_connection cf (Some p) with
  | (None, q) =>
      ∃ p', q = Some p'
            ∧ Server.used (Server.putconn lost p') = Server.used p
            ∧ Server.used p' = S (Server.used p)
            ∧ ((Server.idle p + Server.used p ≤ Server.maxconn)%nat →
               (Server.idle p' + Server.used p' ≤ Server.maxconn)%nat
               ∧ (Server.idle (Server.putconn lost p')
                  + Server.used (Server.putconn lost p') ≤ Server.maxconn)%nat)
  | (Some f, q) =>
      q = Some p ∧ (cf = None → Server.used p = Server.maxconn)
  end.
Proof.
  unfold Server.get_db_connection. pose proof (get_then_return cf lost p) as H.
  destruct (Server.getconn cf p) as [[f |] p'].
  - destruct H as (-> & H & _). by split.
  - exists p'. by destruct H as (? & ? & ?).
Qed.

Lemma handle_pool rd (r : Server.request_to) s p :
  Server.db_pool s = Some p →
  (Server.idle p + Server.used p ≤ Server.maxconn)%nat →
  ∃ p',
    Server.db_pool (Server.handle rd r s) = Some p'
    ∧ (Server.idle p' + Server.used p' ≤ Server.maxconn)%nat
    ∧ (Server.used p ≤ Server.used p')%nat
    ∧ (Server.failing_check r = true →
       Server.used p' = Nat.min Server.maxconn (Server.used p + 1)).
Proof.
  intros Hp Hfit. destruct r as [c | today c | fault lost data | c];
    cbn [Server.handle Server.failing_check].
  - unfold Server.health_check. rewrite Hp.
    pose proof (get_db_connection_pool (Server.connect_fault c) (Server.lost c) p) as H.
    destruct (Server.get_db_connection _ _) as [[f |] q].
    + destruct H as (-> & Hfull). exists p. cbn -[Nat.min]. repeat split; try done.
      destruct (Server.connect_fault c); [done |].
      destruct (Server.statement_fault c); [| done].
      intros _. rewrite (Hfull eq_refl). unfold Server.maxconn. lia.
    + destruct H as (p' & -> & Hback & Hused & Hfits). destruct (Hfits Hfit) as [F1 F2].
      destruct (Server.statement_fault c) as [e |]; cbn -[Nat.min].
      * exists p'. repeat split; [done | lia |]. intros _. rewrite Hused.
        unfold Server.maxconn in *. lia.
      * eexists. split; [reflexivity |]. split; [done |]. split; [lia |].
        by destruct (Server.connect_fault c).
  - rewrite dashboard_eq, Hp.
    pose proof (get_db_connection_pool (Server.connect_fault c) (Server.lost c) p) as H.
    destruct (Server.get_db_connection _ _) as [[f |] q].
    + destruct H as (-> & _). exists p. by repeat split.
    + destruct H as (p' & -> & Hback & Hused & Hfits). destruct (Hfits Hfit) as [F1 F2].
      eexists. cbn. split; [reflexivity |]. split; [done |]. split; [lia | done].
  - unfold Server.search_emails. rewrite Hp.
    pose proof (get_db_connection_pool (Server.opening fault) lost p) as H.
    destruct (Server.get_db_connection _ _) as [[f |] q].
    + destruct H as (-> & _). exists p. by repeat split.
    + destruct H as (p' & -> & Hback & Hused & Hfits). destruct (Hfits Hfit) as [F1 F2].
      destruct (App.search_emails _ _ _) as [[b | e] db']; eexists; cbn;
        (split; [reflexivity |]); (split; [done |]); (split; [lia | done]).
  - rewrite woo_dashboard_eq, Hp.
    pose proof (get_db_connection_pool (Server.connect_fault c) (Server.lost c) p) as H.
    destruct (Server.get_db_connection _ _) as [[f |] q].
    + destruct H as (-> & _). exists p. by repeat split.
    + destruct H as (p' & -> & Hback & Hused & Hfits). destruct (Hfits Hfit) as [F1 F2].
      eexists. cbn. split; [reflexivity |]. split; [done |]. split; [lia | done].
Qed.

Lemma serve_pool rd (rs : list Server.request_to) s p :
  Server.db_pool s = Some p →
  (Server.idle p + Server.used p ≤ Server.maxconn)%nat →
  ∃ p',
    Server.db_pool (Server.serve rd rs s) = Some p'
    ∧ (Server.idle p' + Server.used p' ≤ Server.maxconn)%nat
    ∧ (Nat.min Server.maxconn
         (Server.used p + length (List.filter Server.failing_check rs))
       ≤ Server.used p')%nat.
Proof.
  revert s p. induction rs as [| r rs IH]; intros s p Hp Hfit.
  - exists p. split; [done |]. split; [done |]. cbn [List.filter length]. lia.
  - destruct (handle_pool rd r s p Hp Hfit) as (p1 & Hp1 & Hfit1 & Hmono & Hleak).
    destruct (IH _ _ Hp1 Hfit1) as (p' & Hp' & Hfit' & Hcount).
    exists p'. split; [exact Hp' |]. split; [done |].
    cbn [List.filter]. destruct (Server.failing_check r).
    + rewrite (Hleak eq_refl) in Hcount. cbn [length]. lia.
    + lia.
Qed.

(** A server whose pool is exhausted answers every request with
    [PoolError] and stays as it is. *)
Lemma exhausted_server rd s :
  Server.db_pool s = Some (Server.Pool 0 Server.maxconn) →
  (∀ c, Server.health_check c s = (Server.Reply500 Server.PoolError, s))
  ∧ (∀ today c, Server.dashboard today rd c s = (Server.Reply500 Server.PoolError, s))
  ∧ (∀ fault lost data,
       Server.search_emails fault lost data s = (Server.Reply500 Server.PoolError, s))
  ∧ (∀ c, Server.woo_dashboard rd c s = (Server.Reply500 Server.PoolError, s)).
Proof.
  intros Hp. destruct s as [q db]. cbn in Hp. subst q.
  repeat split; intros;
    rewrite ?dashboard_eq, ?woo_dashboard_eq;
    unfold Server.health_check, Server.search_emails, Server.get_db_connection;
    cbn [Server.db_pool Server.store]; by rewrite getconn_exhausted.
Qed.

End PoolFacts.

(** X10: the search handler and the two dashboards give their connection
    back whatever happens: after the call the pool has as many connections
    handed out as before.  The two dashboards, and the health check, leave
    the database as it is. *)
Theorem X10_connection_is_given_back
    (request_date : woo_row → option Z) (s : Server.server) :
  (∀ fault lost data,
     Server.used <$> Server.db_pool (Server.search_emails fault lost data s).2
     = Server.used <$> Server.db_pool s)
  ∧ (∀ today c,
       Server.used <$> Server.db_pool (Server.dashboard today request_date c s).2
       = Server.used <$> Server.db_pool s
       ∧ Server.store (Server.dashboard today request_date c s).2 = Server.store s)
  ∧ (∀ c,
       Server.used <$> Server.db_pool (Server.woo_dashboard request_date c s).2
       = Server.used <$> Server.db_pool s
       ∧ Server.store (Server.woo_dashboard request_date c s).2 = Server.store s)
  ∧ (∀ c, Server.store (Server.health_check c s).2 = Server.store s).
Proof.
  assert (Hget : ∀ cf lost,
    match Server.get_db_connection cf (Server.db_pool s) with
    | (None, q) =>
        Server.used <$> Server.return_db_connection lost q
        = Server.used <$> Server.db_pool s
    | (Some _, q) => q = Server.db_pool s
    end).
  { intros cf lost. destruct (Server.db_pool s) as [p |].
    - pose proof (get_db_connection_pool cf lost p) as H.
      destruct (Server.get_db_connection cf (Some p)) as [[f |] q].
      + apply H.
      + destruct H as (p' & -> & Hback & _). cbn -[Server.putconn]. by rewrite Hback.
    - cbn. by destruct cf. }
  split; [| split; [| split]].
  - intros fault lost data. unfold Server.search_emails.
    specialize (Hget (Server.opening fault) lost).
    destruct (Server.get_db_connection _ _) as [[f |] q]; [by subst |].
    by destruct (App.search_emails _ _ _) as [[b | e] db'].
  - intros today c. rewrite dashboard_eq.
    specialize (Hget (Server.connect_fault c) (Server.lost c)).
    destruct (Server.get_db_connection _ _) as [[f |] q]; [by subst | done].
  - intros c. rewrite woo_dashboard_eq.
    specialize (Hget (Server.connect_fault c) (Server.lost c)).
    destruct (Server.get_db_connection _ _) as [[f |] q]; [by subst | done].
  - intros c. unfold Server.health_check.
    destruct (Server.get_db_connection _ _) as [[f |] q]; [done |].
    by destruct (Server.statement_fault c).
Qed.

(** X11: the health check does not give its connection back when its
    statement fails.  Once ten health checks have failed in this way, in
    any history of requests since the pool was created, the pool has all
    its ten connections handed out for good: every later request to any
    of the four handlers is answered 500 with [PoolError], and changes
    nothing. *)
Theorem X11_failed_health_checks_exhaust_the_pool
    (request_date : woo_row → option Z) (rs : list Server.request_to) (db : database)
    (H : (10 ≤ length (List.filter Server.failing_check rs))%nat) :
  let s := Server.serve request_date rs (Server.MkServer (Server.create_pool None) db) in
  Server.db_pool s = Some (Server.Pool 0 10)
  ∧ (∀ c, Server.health_check c s = (Server.Reply500 Server.PoolError, s))
  ∧ (∀ today c,
       Server.dashboard today request_date c s = (Server.Reply500 Server.PoolError, s))
  ∧ (∀ fault lost data,
       Server.search_emails fault lost data s = (Server.Reply500 Server.PoolError, s))
  ∧ (∀ c, Server.woo_dashboard request_date c s = (Server.Reply500 Server.PoolError, s)).
Proof.
  intros s.
  destruct (serve_pool request_date rs (Server.MkServer (Server.create_pool None) db)
              (Server.Pool 1 0)) as (p' & Hp' & Hfit & Hcount).
  { reflexivity. }
  { cbn. unfold Server.maxconn. lia. }
  fold s in Hp'. cbn [Server.used] in Hcount. unfold Server.maxconn in *.
  assert (Hp : Server.db_pool s = Some (Server.Pool 0 10)).
  { rewrite Hp'. destruct p' as [i u]. cbn [Server.idle Server.used] in *.
    f_equal. f_equal; lia. }
  split; [exact Hp |]. by apply exhausted_server.
Qed.

Lemma X11_failed_health_checks_exhaust_the_pool_witness :
  let stale := Server.ToHealth (Server.Conditions None (Some OperationalError) false true) in
  let s := Server.serve (fun _ => None) (replicate 10 stale)
             (Server.MkServer (Server.create_pool None) fresh_database) in
  Server.db_pool s = Some (Server.Pool 0 10)
  ∧ (∀ c, Server.health_check c s = (Server.Reply500 Server.PoolError, s))
  ∧ (∀ today c,
       Server.dashboard today (fun _ => None) c s = (Server.Reply500 Server.PoolError, s))
  ∧ (∀ fault lost data,
       Server.search_emails fault lost data s = (Server.Reply500 Server.PoolError, s))
  ∧ (∀ c, Server.woo_dashboard (fun _ => None) c s
          = (Server.Reply500 Server.PoolError, s)).
Proof.
  apply (X11_failed_health_checks_exhaust_the_pool (fun _ => None)
           (replicate 10
              (Server.ToHealth (Server.Conditions None (Some OperationalError) false true)))
           fresh_database).
  cbn. lia.
Defined.

(** ** The dashboards *)

Section Dashboards.

Implicit Types (s : Server.server) (c : Server.conditions) (db : database).

#[local] Instance desc_first_total {R} (key : R → option Z) :
  Total (Server.desc_first key).
Proof.
  intros r1 r2. unfold Server.desc_first.
  destruct (key r1) as [a |], (key r2) as [b |]; auto.
  destruct (Z.le_ge_cases a b); auto.
Qed.

#[local] Instance desc_first_trans {R} (key : R → option Z) :
  Transitive (Server.desc_first key).
Proof.
  intros r1 r2 r3. unfold Server.desc_first.
  destruct (key r1) as [a |], (key r2) as [b |], (key r3) as [c |]; try done.
  lia.
Qed.

Lemma merge_sort_desc_first {R} (key : R → option Z) (l : list R) :
  StronglySorted (Server.desc_first key) (merge_sort (Server.desc_first key) l).
Proof. apply StronglySorted_merge_sort; apply _. Qed.

(** A dashboard that answers 200 found both tables and rendered what the
    two statements gave. *)
Lemma dashboard_200 today rd c s ctx s' :
  Server.dashboard today rd c s = (Server.Reply200 ctx, s') →
  ∃ t w,
    email_metadata (Server.store s) = Some t
    ∧ woo_requests (Server.store s) = Some w
    ∧ Server.select_stats today (Server.store s)
      = (Ok (Server.ctx_stats ctx), Server.store s)
    ∧ Server.ctx_recent_woo ctx
      = map (Server.recent_columns rd) (Server.recent_rows rd w).
Proof.
  rewrite dashboard_eq.
  destruct (Server.get_db_connection _ _) as [[f |] p]; [done |].
  destruct (Server.statement_fault c); [done |].
  unfold Server.dashboard_statements, Server.select_stats, Server.select_recent_woo.
  rewrite tx_bind_unfold.
  destruct (email_metadata (Server.store s)) as [t |]; [| done].
  rewrite tx_bind_unfold.
  destruct (woo_requests (Server.store s)) as [w |]; [| done].
  cbn [fst mret tx_ret]. destruct (Server.render_fault c); [done |].
  intros [= <- <-]. by exists t, w.
Qed.

Lemma woo_dashboard_200 rd c s lines s' :
  Server.woo_dashboard rd c s = (Server.Reply200 lines, s') →
  ∃ w m,
    woo_requests (Server.store s) = Some w
    ∧ woo_email_matches (Server.store s) = Some m
    ∧ lines
      = merge_sort (Server.desc_first (fun l => rd (Server.request l)))
          (omap Server.group_line
             (Server.group_by_id (Server.left_join (rows w) (rows m)))).
Proof.
  rewrite woo_dashboard_eq.
  destruct (Server.get_db_connection _ _) as [[f |] p]; [done |].
  destruct (Server.statement_fault c); [done |].
  unfold Server.select_woo_requests.
  destruct (woo_requests (Server.store s)) as [w |]; [| done].
  destruct (woo_email_matches (Server.store s)) as [m |]; [| done].
  cbn [fst]. destruct (Server.render_fault c); [done |].
  intros [= <- <-]. by exists w, m.
Qed.

(** Counting the rows on which a condition is true. *)
Lemma count_case_when {A B} (p : B → bool) (proj : A → option B) (l : list A) :
  Server.sql_count (fun r => Server.case_when (p <$> proj r)) l
  = Z.of_nat (length (List.filter (fun r => opt_test p (proj r)) l)).
Proof.
  unfold Server.sql_count. f_equal.
  induction l as [| a l IH]; [done |]. csimpl.
  destruct (proj a) as [b |]; csimpl; [destruct (p b) |]; csimpl;
    first [exact IH | f_equal; exact IH].
Qed.

Lemma count_not_null {A B} (proj : A → option B) (l : list A) :
  Server.sql_count
    (fun r => Server.case_when (Some (bool_decide (is_Some (proj r))))) l
  = Z.of_nat (length (List.filter (fun r => bool_decide (is_Some (proj r))) l)).
Proof.
  unfold Server.sql_count. f_equal.
  induction l as [| a l IH]; [done |]. csimpl.
  destruct (bool_decide (is_Some (proj a))); csimpl;
    first [exact IH | f_equal; exact IH].
Qed.

Lemma filter_length_bound {A} (p : A → bool) (l : list A) :
  (length (List.filter p l) ≤ length l)%nat.
Proof. induction l as [| a l IH]; [done |]. simpl. destruct (p a); simpl; lia. Qed.

Lemma fold_left_add (vs : list Z) (v : Z) :
  fold_left Z.add vs v = (v + foldr Z.add 0 vs)%Z.
Proof. revert v. induction vs as [| x vs IH]; intros v; simpl; [lia |]. rewrite IH. lia. Qed.

(** [COALESCE(SUM(e), 0)] adds up the values that are known. *)
Lemma sum_coalesce {A} (e : A → option Z) (l : list A) :
  Server.coalesce (Server.sql_sum e l) 0
  = foldr Z.add 0 (map (fun r => default 0 (e r)) l).
Proof.
  assert (H : foldr Z.add 0 (map (fun r => default 0 (e r)) l)
              = foldr Z.add 0 (omap e l)).
  { induction l as [| a l IH]; [done |]. csimpl. rewrite IH.
    destruct (e a); csimpl; lia. }
  rewrite H. unfold Server.sql_sum. destruct (omap e l) as [| v vs]; [done |].
  simpl. rewrite fold_left_add. lia.
Qed.

(** The rows [ORDER BY request_date DESC LIMIT 5] picks are the first
    five in descending order. *)
Lemma recent_rows_spec rd (t : table woo_row) :
  ∃ rest,
    Server.recent_rows rd t ++ rest ≡ₚ rows t
    ∧ StronglySorted (Server.desc_first rd) (Server.recent_rows rd t ++ rest)
    ∧ length (Server.recent_rows rd t) = Nat.min 5 (length (rows t)).
Proof.
  unfold Server.recent_rows. set (sorted := merge_sort _ _).
  exists (drop 5 sorted). rewrite take_drop. split; [| split].
  - apply merge_sort_Permutation.
  - apply StronglySorted_merge_sort; apply _.
  - rewrite length_take. f_equal. subst sorted. by rewrite merge_sort_Permutation.
Qed.

(** *** Grouping the joined rows *)

Lemma add_to_groups_skip (j : woo_row * option match_row)
    (gs tail : list (list (woo_row * option match_row))) :
  Forall (fun g => ∃ w o g', g = (w, o) :: g' ∧ w_id w ≠ w_id j.1) gs →
  Server.add_to_groups j (gs ++ tail) = gs ++ Server.add_to_groups j tail.
Proof.
  induction 1 as [| g gs (w & o & g' & -> & Hne) _ IH]; [done |].
  cbn [app Server.add_to_groups].
  destruct (Z.eqb_spec (w_id w) (w_id j.1)) as [Heq | _]; [done |].
  by rewrite IH.
Qed.

(** The rows of one request, joined one after the other to groups of
    other requests, make one more group. *)
Lemma foldr_add_group (w : woo_row) (js : list (woo_row * option match_row))
    (gs : list (list (woo_row * option match_row))) :
  js ≠ [] →
  Forall (fun j => j.1 = w) js →
  Forall (fun g => ∃ w' o g', g = (w', o) :: g' ∧ w_id w' ≠ w_id w) gs →
  foldr Server.add_to_groups gs js = gs ++ [js].
Proof.
  intros Hne Hw Hgs. induction js as [| j js IH]; [done |].
  apply Forall_cons in Hw as [Hj Hw]. cbn [foldr].
  assert (Hgs' : Forall (fun g => ∃ w' o g', g = (w', o) :: g' ∧ w_id w' ≠ w_id j.1) gs)
    by (by rewrite Hj).
  destruct js as [| j' js'].
  - cbn [foldr]. rewrite <- (app_nil_r gs) at 1.
    by rewrite (add_to_groups_skip j gs [] Hgs').
  - rewrite IH by done. rewrite (add_to_groups_skip j gs _ Hgs').
    apply Forall_cons in Hw as [Hj' _]. destruct j' as [w' o']. cbn in Hj'. subst w'.
    cbn [Server.add_to_groups]. rewrite Hj. by rewrite Z.eqb_refl.
Qed.

Lemma joined_rows_shape (ms : list match_row) (w : woo_row) :
  (∃ o tl, Server.joined_rows ms w = (w, o) :: tl)
  ∧ Forall (fun j => j.1 = w) (Server.joined_rows ms w).
Proof.
  unfold Server.joined_rows. destruct (List.filter (Server.joins w) ms) as [| m l].
  - split; [by eexists _, _ |]. by repeat constructor.
  - split; [by eexists _, _ |]. apply Forall_forall. intros j Hj.
    apply list_elem_of_In, in_map_iff in Hj as (m' & <- & _). done.
Qed.

(** With distinct keys, grouping the join by key gives back the rows of
    each request. *)
Lemma group_by_left_join (ws : list woo_row) (ms : list match_row) :
  NoDup (map w_id ws) →
  Server.group_by_id (Server.left_join ws ms)
  = reverse (map (Server.joined_rows ms) ws).
Proof.
  unfold Server.group_by_id, Server.left_join.
  induction ws as [| w ws IH]; intros Hnd; [done |].
  cbn [map flat_map] in *. apply NoDup_cons in Hnd as [Hw Hnd].
  rewrite foldr_app, IH by done. rewrite reverse_cons.
  destruct (joined_rows_shape ms w) as ((o & tl & Hshape) & Hall).
  apply (foldr_add_group w); [by rewrite Hshape | done |].
  apply Forall_forall. intros g Hg.
  apply elem_of_reverse, list_elem_of_In, in_map_iff in Hg as (w' & <- & Hin).
  destruct (joined_rows_shape ms w') as ((o' & tl' & ->) & _).
  exists w', o', tl'. split; [done |]. intros Heq. apply Hw.
  rewrite <- Heq. apply list_elem_of_In, in_map. exact Hin.
Qed.

Lemma filter_andb {A} (p q : A → bool) (l : list A) :
  List.filter (fun a => p a && q a) l = List.filter q (List.filter p l).
Proof.
  induction l as [| a l IH]; [done |]. simpl.
  destruct (p a); simpl; [destruct (q a) |]; by rewrite ?IH.
Qed.

(** [COUNT(wem.email_id)] on the rows of one request counts its matches
    that name an email. *)
Lemma count_email_id_joined (ms : list match_row) (w : woo_row) :
  Server.count_email_id (Server.joined_rows ms w)
  = Z.of_nat (length (List.filter
                        (fun m => Server.joins w m && bool_decide (is_Some (m_email_id m)))
                        ms)).
Proof.
  rewrite filter_andb. unfold Server.count_email_id, Server.sql_count, Server.joined_rows.
  f_equal. destruct (List.filter (Server.joins w) ms) as [| m l]; [done |].
  generalize (m :: l). clear. intros l.
  induction l as [| m l IH]; [done |]. csimpl.
  destruct (m_email_id m); csimpl; first [exact IH | f_equal; exact IH].
Qed.

Lemma group_lines (ms : list match_row) (ws : list woo_row) :
  omap Server.group_line (map (Server.joined_rows ms) ws)
  = map (fun w => Server.WooLine w (Server.count_email_id (Server.joined_rows ms w))) ws.
Proof.
  induction ws as [| w ws IH]; [done |]. csimpl.
  destruct (joined_rows_shape ms w) as ((o & tl & Hshape) & _).
  unfold Server.group_line at 1. rewrite Hshape. rewrite <- Hshape. csimpl.
  by rewrite IH.
Qed.

End Dashboards.

(** X12: the statistics of a dashboard that answers 200.
    [total_emails] counts the rows; [emails_last_week] the rows sent at or
    after midnight seven days ago, later dates included and rows without
    a date left out; [confidential_emails] the rows classified
    "vertrouwelijk"; [linked_to_cases] the rows with a case id;
    [total_storage_bytes] adds up the sizes that are known.  No count
    exceeds [total_emails], and on an empty table all five are 0. *)
Theorem X12_dashboard_statistics
    (today : Z) (request_date : woo_row → option Z) (c : Server.conditions)
    (s : Server.server) (ctx : Server.dashboard_context) (s' : Server.server)
    (H : Server.dashboard today request_date c s = (Server.Reply200 ctx, s')) :
  let st := Server.ctx_stats ctx in
  let es := emails (Server.store s) in
  Server.total_emails st = Z.of_nat (length es)
  ∧ Server.emails_last_week st
    = Z.of_nat (length (List.filter
                          (fun r => opt_test (Z.leb (Server.week_ago today)) (e_sent_date r))
                          es))
  ∧ Server.confidential_emails st
    = Z.of_nat (length (List.filter
                          (fun r => opt_test (fun k => String.eqb k "vertrouwelijk")
                                      (e_classification r))
                          es))
  ∧ Server.linked_to_cases st
    = Z.of_nat (length (List.filter (fun r => bool_decide (is_Some (e_zaak_id r))) es))
  ∧ Server.total_storage_bytes st
    = foldr Z.add 0%Z (map (fun r => default 0%Z (e_file_size_bytes r)) es)
  ∧ (Server.emails_last_week st ≤ Server.total_emails st)%Z
  ∧ (Server.confidential_emails st ≤ Server.total_emails st)%Z
  ∧ (Server.linked_to_cases st ≤ Server.total_emails st)%Z
  ∧ (es = [] → st = Server.Stats 0 0 0 0 0).
Proof.
  intros st es.
  destruct (dashboard_200 _ _ _ _ _ _ H) as (t & w & Ht & _ & Hst & _).
  unfold Server.select_stats in Hst. rewrite Ht in Hst. injection Hst as Hst.
  assert (Hes : es = rows t) by (subst es; unfold emails; by rewrite Ht).
  subst st. rewrite <- Hst, Hes. cbn [Server.total_emails Server.emails_last_week
    Server.confidential_emails Server.linked_to_cases Server.total_storage_bytes].
  rewrite !count_case_when, (count_not_null e_zaak_id), sum_coalesce.
  repeat split; try done.
  - apply inj_le, filter_length_bound.
  - apply inj_le, filter_length_bound.
  - apply inj_le, filter_length_bound.
  - by intros ->.
Qed.

Lemma X12_dashboard_statistics_witness :
  let ok := Server.Conditions None None false false in
  let s := Server.MkServer (Server.create_pool None) seeded_database in
  let out := Server.dashboard 19746 (fun _ => Some 19737%Z) ok s in
  ∃ ctx,
    out.1 = Server.Reply200 ctx
    ∧ Server.ctx_stats ctx = Server.Stats 5 3 1 5 5940
    ∧ let st := Server.ctx_stats ctx in
      let es := emails (Server.store s) in
      Server.total_emails st = Z.of_nat (length es)
      ∧ Server.emails_last_week st
        = Z.of_nat (length (List.filter
                              (fun r => opt_test (Z.leb (Server.week_ago 19746))
                                          (e_sent_date r))
                              es))
      ∧ Server.confidential_emails st
        = Z.of_nat (length (List.filter
                              (fun r => opt_test (fun k => String.eqb k "vertrouwelijk")
                                          (e_classification r))
                              es))
      ∧ Server.linked_to_cases st
        = Z.of_nat (length (List.filter (fun r => bool_decide (is_Some (e_zaak_id r))) es))
      ∧ Server.total_storage_bytes st
        = foldr Z.add 0%Z (map (fun r => default 0%Z (e_file_size_bytes r)) es)
      ∧ (Server.emails_last_week st ≤ Server.total_emails st)%Z
      ∧ (Server.confidential_emails st ≤ Server.total_emails st)%Z
      ∧ (Server.linked_to_cases st ≤ Server.total_emails st)%Z
      ∧ (es = [] → st = Server.Stats 0 0 0 0 0).
Proof.
  intros ok s out.
  exists (match out.1 with
          | Server.Reply200 ctx => ctx
          | Server.Reply500 _ => Server.DashboardContext (Server.Stats 0 0 0 0 0) []
          end).
  split; [vm_compute; reflexivity |]. split; [vm_compute; reflexivity |].
  apply (X12_dashboard_statistics 19746 (fun _ => Some 19737%Z) ok s _ out.2).
  vm_compute. reflexivity.
Defined.

(** X13: the dashboard shows at most five requests, the ones with the
    latest request dates, latest first (a request without a date counts
    as latest). *)
Theorem X13_dashboard_recent_requests
    (today : Z) (request_date : woo_row → option Z) (c : Server.conditions)
    (s : Server.server) (ctx : Server.dashboard_context) (s' : Server.server)
    (H : Server.dashboard today request_date c s = (Server.Reply200 ctx, s')) :
  ∃ shown rest,
    Server.ctx_recent_woo ctx = map (Server.recent_columns request_date) shown
    ∧ shown ++ rest ≡ₚ requests (Server.store s)
    ∧ StronglySorted (Server.desc_first request_date) (shown ++ rest)
    ∧ length shown = Nat.min 5 (length (requests (Server.store s))).
Proof.
  destruct (dashboard_200 _ _ _ _ _ _ H) as (t & w & _ & Hw & _ & Hrecent).
  destruct (recent_rows_spec request_date w) as (rest & Hperm & Hsort & Hlen).
  exists (Server.recent_rows request_date w), rest.
  unfold requests. rewrite Hw. by repeat split.
Qed.

Lemma X13_dashboard_recent_requests_witness :
  let ok := Server.Conditions None None false false in
  let s := Server.MkServer (Server.create_pool None) seeded_database in
  let out := Server.dashboard 19744 (fun _ => Some 19737%Z) ok s in
  ∃ ctx,
    out.1 = Server.Reply200 ctx
    ∧ ∃ shown rest,
        Server.ctx_recent_woo ctx = map (Server.recent_columns (fun _ => Some 19737%Z)) shown
        ∧ shown ++ rest ≡ₚ requests (Server.store s)
        ∧ StronglySorted (Server.desc_first (fun _ => Some 19737%Z)) (shown ++ rest)
        ∧ length shown = Nat.min 5 (length (requests (Server.store s))).
Proof.
  intros ok s out.
  exists (match out.1 with
          | Server.Reply200 ctx => ctx
          | Server.Reply500 _ => Server.DashboardContext (Server.Stats 0 0 0 0 0) []
          end).
  split; [vm_compute; reflexivity |].
  apply (X13_dashboard_recent_requests 19744 (fun _ => Some 19737%Z) ok s _ out.2).
  vm_compute. reflexivity.
Defined.

(** X14: the WOO dashboard lists every request exactly once, latest
    request date first, with the number of its matches that name an
    email: a request without matches is listed with 0, and a match
    without an email is not counted.  (The key [id] of the requests is a
    primary key: no two rows share it.) *)
Theorem X14_woo_dashboard_lists_every_request
    (request_date : woo_row → option Z) (c : Server.conditions)
    (s : Server.server) (lines : list Server.woo_line) (s' : Server.server)
    (Hkey : NoDup (map w_id (requests (Server.store s))))
    (H : Server.woo_dashboard request_date c s = (Server.Reply200 lines, s')) :
  lines ≡ₚ map (fun w =>
                  Server.WooLine w
                    (Z.of_nat (length (List.filter
                                         (fun m => Server.joins w m
                                                   && bool_decide (is_Some (m_email_id m)))
                                         (matches (Server.store s))))))
               (requests (Server.store s))
  ∧ StronglySorted (Server.desc_first (fun l => request_date (Server.request l))) lines.
Proof.
  destruct (woo_dashboard_200 _ _ _ _ _ H) as (w & m & Hw & Hm & ->).
  unfold requests, matches in *. rewrite Hw in Hkey. rewrite Hw, Hm.
  cbn [from_option] in *. split.
  - rewrite merge_sort_Permutation, (group_by_left_join _ _ Hkey).
    rewrite reverse_Permutation, group_lines.
    erewrite map_ext; [reflexivity |]. intros w0. cbv beta.
    by rewrite count_email_id_joined.
  - apply merge_sort_desc_first.
Qed.

Lemma X14_woo_dashboard_lists_every_request_witness :
  let ok := Server.Conditions None None false false in
  let s := Server.MkServer (Server.create_pool None) seeded_database in
  let out := Server.woo_dashboard (fun _ => Some 19737%Z) ok s in
  ∃ lines,
    out.1 = Server.Reply200 lines
    ∧ map Server.matched_emails lines = [0%Z]
    ∧ lines ≡ₚ map (fun w =>
                      Server.WooLine w
                        (Z.of_nat (length (List.filter
                                             (fun m => Server.joins w m
                                                       && bool_decide
                                                            (is_Some (m_email_id m)))
                                             (matches (Server.store s))))))
                   (requests (Server.store s))
    ∧ StronglySorted
        (Server.desc_first (fun l => (fun _ : woo_row => Some 19737%Z) (Server.request l)))
        lines.
Proof.
  intros ok s out.
  exists (match out.1 with Server.Reply200 lines => lines | Server.Reply500 _ => [] end).
  split; [vm_compute; reflexivity |]. split; [vm_compute; reflexivity |].
  apply (X14_woo_dashboard_lists_every_request (fun _ => Some 19737%Z) ok s _ out.2).
  - apply (bool_decide_eq_true_1 (NoDup (map w_id (requests (Server.store s))))).
    vm_compute. reflexivity.
  - vm_compute. reflexivity.
Defined.

Section FirstStart.



End FirstStart.



(** ** When seeding succeeds *)

Section SeedingCases.

Implicit Types (db : database).












End SeedingCases.


